(** * Skyscraper dashboard (main.py): filter engine and views

    A shallow embedding of the pandas pipeline of [main.py]: the loader's
    two normalisation steps, the boolean-mask filter, the column drop and
    the six tabs, which run one after the other over the shared variable
    [filtered_df].

    Conventions.
    - A DataFrame is the list of its rows, in index order.
    - A float cell is [option Qc]: [None] is NaN, [Some q] a finite
      value.  Comparisons, rounding to a whole number, [max], [min] and the
      median of an odd number of cells are exact on floats, so they agree
      with the rational model; sums and means are idealised.
    - The completed-year column holds whole numbers or NaN: [option Z].
    - A Python exception is the [Raise] branch of [result]. *)

From Stdlib Require Import ZArith QArith Qcanon Qround Lia Lqa Ascii.
From stdpp Require Import base decidable option list strings numbers sorting.

Local Open Scope Z_scope.

(** ** Columns and rows *)

(** One line of [skyscrapers.csv] as [pd.read_csv] returns it. *)
Record CsvRow := mkCsvRow {
  csv_id : Z;
  csv_name : string;
  csv_location_city : option string;
  csv_location_country : string;
  csv_location_latitude : option Qc;
  csv_location_longitude : option Qc;
  csv_statistics_height : option Qc;
  csv_status_completed_year : option Z;
  csv_purposes : list bool
}.

(** A row of [df] after the cleaning steps (lines 12-14). *)
Record Record_ := mkRecord {
  id_ : Z;
  name : string;
  location_city : string;
  location_country : string;
  location_latitude : option Qc;
  location_longitude : option Qc;
  statistics_height : option Qc;
  status_completed_year : option Z;
  purposes : list bool
}.

(** A row of [filtered_df] after [drop(columns=columns_to_exclude)]. *)
Record Row := mkRow {
  row_name : string;
  row_city : string;
  row_country : string;
  row_latitude : option Qc;
  row_longitude : option Qc;
  row_height : option Qc;
  row_year : option Z
}.

Global Instance Record_eq_dec : EqDecision Record_.
Proof. solve_decision. Defined.

Global Instance Row_eq_dec : EqDecision Row.
Proof. solve_decision. Defined.

(** ** Dataset loader (lines 9-14) *)

(** [df['location.city'].fillna('Unknown')] *)
Definition fillna_city (c : option string) : string :=
  match c with
  | Some s => s
  | None => "Unknown"%string
  end.

(** [df['status_completed_year'].replace(0, np.nan)] *)
Definition replace_zero_nan (y : option Z) : option Z :=
  match y with
  | Some v => if bool_decide (v = 0) then None else Some v
  | None => None
  end.

Definition clean (c : CsvRow) : Record_ :=
  {| id_ := csv_id c;
     name := csv_name c;
     location_city := fillna_city (csv_location_city c);
     location_country := csv_location_country c;
     location_latitude := csv_location_latitude c;
     location_longitude := csv_location_longitude c;
     statistics_height := csv_statistics_height c;
     status_completed_year := replace_zero_nan (csv_status_completed_year c);
     purposes := csv_purposes c |}.

Definition load (csv : list CsvRow) : list Record_ := clean <$> csv.

(** ** Filter engine (lines 76-83) *)

(** Element-wise comparison of a column cell with a scalar; a comparison
    with NaN is [False]. *)
Definition year_ge (y : option Z) (b : Z) : bool :=
  match y with Some v => bool_decide (b ≤ v) | None => false end.

Definition year_le (y : option Z) (b : Z) : bool :=
  match y with Some v => bool_decide (v ≤ b) | None => false end.

Definition height_ge (h : option Qc) (b : Qc) : bool :=
  match h with Some v => bool_decide (b ≤ v)%Qc | None => false end.

Definition height_le (h : option Qc) (b : Qc) : bool :=
  match h with Some v => bool_decide (v ≤ b)%Qc | None => false end.

(** The mask of lines 77-80: four comparisons joined by [&]. *)
Definition range_mask (year_range : Z * Z) (height_range : Qc * Qc)
    (r : Record_) : bool :=
  year_ge (status_completed_year r) year_range.1 &&
  year_le (status_completed_year r) year_range.2 &&
  height_ge (statistics_height r) height_range.1 &&
  height_le (statistics_height r) height_range.2.

(** [filtered_df['location_city'].isin(city_filter)] *)
Definition isin (city_filter : list string) (r : Record_) : bool :=
  bool_decide (location_city r ∈ city_filter).

(** [if city_filter:] -- a Python list is true when it is not empty. *)
Definition truthy {A} (l : list A) : bool :=
  match l with [] => false | _ :: _ => true end.

Definition filter_engine (df : list Record_) (year_range : Z * Z)
    (height_range : Qc * Qc) (city_filter : list string) : list Record_ :=
  let filtered_df := filter (λ r, range_mask year_range height_range r) df in
  if truthy city_filter
  then filter (λ r, isin city_filter r) filtered_df
  else filtered_df.

(** The slider of lines 63-68 is built from [int] bounds, so the height
    range it returns is a pair of integers. *)
Definition slider_heights (lo hi : Z) : Qc * Qc := (Qc_of_Z lo, Qc_of_Z hi).

(** ** Column projector (lines 86-94) *)

Definition drop_columns (r : Record_) : Row :=
  {| row_name := name r;
     row_city := location_city r;
     row_country := location_country r;
     row_latitude := location_latitude r;
     row_longitude := location_longitude r;
     row_height := statistics_height r;
     row_year := status_completed_year r |}.

Definition project (filtered_df : list Record_) : list Row :=
  drop_columns <$> filtered_df.

(** The predicate of the filter contract, one conjunct per filter. *)
Definition year_in (year_range : Z * Z) (r : Record_) : Prop :=
  ∃ y, status_completed_year r = Some y ∧ year_range.1 ≤ y ≤ year_range.2.

Definition height_in (height_range : Qc * Qc) (r : Record_) : Prop :=
  ∃ h, statistics_height r = Some h ∧
       (height_range.1 ≤ h)%Qc ∧ (h ≤ height_range.2)%Qc.

Definition city_in (city_filter : list string) (r : Record_) : Prop :=
  city_filter = [] ∨ location_city r ∈ city_filter.

Definition satisfies (year_range : Z * Z) (height_range : Qc * Qc)
    (city_filter : list string) (r : Record_) : Prop :=
  year_in year_range r ∧ height_in height_range r ∧ city_in city_filter r.

(** ** pandas and numpy operations used by the tabs *)

(** [Series.dropna()] *)
Definition dropna {A} (col : list (option A)) : list A := omap id col.

(** [Series.unique()]: the distinct values, in order of first appearance. *)
Fixpoint unique `{EqDecision A} (col : list A) : list A :=
  match col with
  | [] => []
  | x :: col' => x :: filter (λ y, y ≠ x) (unique col')
  end.

(** Number of cells of [col] equal to [k]. *)
Definition occurrences `{EqDecision A} (k : A) (col : list A) : nat :=
  length (filter (λ x, x = k) col).

(** A stable sort: cells that the order does not separate keep their
    relative position. *)
Section StableSort.
Context {A} (R : relation A) `{∀ x y, Decision (R x y)}.

Fixpoint place (x : A) (l : list A) : list A :=
  match l with
  | [] => [x]
  | y :: l' => if decide (R x y) then x :: y :: l' else y :: place x l'
  end.

Definition stable_sort (l : list A) : list A := foldr place [] l.
End StableSort.

(** A Series is the list of its (label, value) pairs. *)
Definition by_count_desc {K} : relation (K * nat) := λ a b, (b.2 ≤ a.2)%nat.
Definition by_label : relation (Z * nat) := λ a b, a.1 ≤ b.1.

Global Instance by_count_desc_dec {K} (a b : K * nat) :
  Decision (by_count_desc a b).
Proof. unfold by_count_desc. apply _. Defined.

Global Instance by_label_dec (a b : Z * nat) : Decision (by_label a b).
Proof. unfold by_label. apply _. Defined.

(** [Series.value_counts()]: one entry per distinct value with the number
    of its occurrences, largest count first.  pandas does not promise an
    order among entries of equal count; here they are kept in order of
    first appearance, and no statement below depends on that order. *)
Definition value_counts `{EqDecision K} (col : list K) : list (K * nat) :=
  stable_sort by_count_desc ((λ k, (k, occurrences k col)) <$> unique col).

(** [Series.sort_index()] on integer labels. *)
Definition sort_index (s : list (Z * nat)) : list (Z * nat) :=
  stable_sort by_label s.

(** [Series.get(k)] *)
Fixpoint series_get `{EqDecision K} (s : list (K * nat)) (k : K) : option nat :=
  match s with
  | [] => None
  | (k', v) :: s' => if decide (k' = k) then Some v else series_get s' k
  end.

(** [Index.union]: the labels of the left index, then the new labels of
    the right one. *)
Definition index_union (ia ib : list Z) : list Z :=
  ia ++ filter (λ k, k ∉ ia) ib.

(** [a.add(b, fill_value=0)]: both Series are aligned on the union of
    their indexes, and a label missing on one side counts as 0 there. *)
Definition series_add_fill0 (a b : list (Z * nat)) : list (Z * nat) :=
  (λ k, (k, (default 0 (series_get a k) + default 0 (series_get b k))%nat))
    <$> index_union a.*1 b.*1.

(** [pd.RangeIndex(start, stop)] *)
Definition range_index (start stop : Z) : list Z := seqZ start (stop - start).

(** [Index.min()]: NaN ([None]) on an empty index. *)
Definition index_min (idx : list Z) : option Z :=
  match idx with
  | [] => None
  | x :: idx' => Some (foldr Z.min x idx')
  end.

(** Round half to even, as [numpy.rint] does. *)
Definition rint (q : Qc) : Z :=
  let f := Qfloor q in
  let frac := (q - Qc_of_Z f)%Qc in
  let half := (/ Qc_of_Z 2)%Qc in
  if decide (frac < half)%Qc then f
  else if decide (half < frac)%Qc then f + 1
  else if Z.even f then f else f + 1.

(** [round(x, 0)] and [round(x, 2)] on a finite float. *)
Definition round0 (q : Qc) : Qc := Qc_of_Z (rint q).
Definition round2 (q : Qc) : Qc :=
  (Qc_of_Z (rint (q * Qc_of_Z 100)) / Qc_of_Z 100)%Qc.

Definition Qc_max (a b : Qc) : Qc := if decide (a ≤ b)%Qc then b else a.
Definition Qc_min (a b : Qc) : Qc := if decide (a ≤ b)%Qc then a else b.

(** Reductions of a float column; all of them skip NaN and give NaN on a
    column without finite cells.  [series_mean] is the exact mean: the
    binary64 mean of the code can differ from it in the last place, and so
    can its rounding to 2 decimals.  The statements below use the mean of a
    single whole-number cell, where both agree, or bound the average
    between two whole numbers. *)
Definition series_max (col : list (option Qc)) : option Qc :=
  match dropna col with
  | [] => None
  | x :: xs => Some (foldr Qc_max x xs)
  end.

Definition series_min (col : list (option Qc)) : option Qc :=
  match dropna col with
  | [] => None
  | x :: xs => Some (foldr Qc_min x xs)
  end.

Definition series_mean (col : list (option Qc)) : option Qc :=
  match dropna col with
  | [] => None
  | xs => Some (foldr Qcplus (Qc_of_Z 0) xs / Qc_of_Z (Z.of_nat (length xs)))%Qc
  end.

Definition series_median (col : list (option Qc)) : option Qc :=
  let xs := stable_sort Qcle (dropna col) in
  let n := length xs in
  if Nat.even n
  then match xs !! (n / 2 - 1)%nat, xs !! (n / 2)%nat with
       | Some a, Some b => Some ((a + b) / Qc_of_Z 2)%Qc
       | _, _ => None
       end
  else xs !! (n / 2)%nat.

(** ** The page: six tabs over the shared [filtered_df] *)

Inductive exn :=
  | ValueError (msg : string)
  | KeyError (msg : string).

Inductive result (A : Type) :=
  | Ok (a : A)
  | Raise (e : exn).
Arguments Ok {A} a.
Arguments Raise {A} e.

(** The summary dictionary of lines 162-168. *)
Record Summary := mkSummary {
  tallest : option Qc;
  shortest : option Qc;
  average : option Qc;
  median_height : option Qc;
  number : nat
}.

(** What a tab puts on the page. *)
Inductive Widget :=
  | DataTable (rows : list Row)
  | DeckChart (selected_city : string) (latitude longitude : option Qc)
      (city_data : list Row)
  | Text (msg : string)
  | SummaryTable (summary : Summary)
  | BarChart (bars : list (string * nat))
  | LineChart (points : list (Z * nat))
  | DownloadButton (csv : list Row).

(** The script's state: the variable [filtered_df], which every tab reads
    and tab 2 assigns to, and the widgets rendered so far.  An exception
    stops the script and leaves the state as it is. *)
Record State := mkState {
  filtered_df : list Row;
  rendered : list Widget
}.

Definition M (A : Type) : Type := State → State * result A.

Global Instance M_ret : MRet M := λ A a s, (s, Ok a).
Global Instance M_bind : MBind M := λ A B k m s,
  match m s with
  | (s', Ok a) => k a s'
  | (s', Raise e) => (s', Raise e)
  end.

Definition get_df : M (list Row) := λ s, (s, Ok (filtered_df s)).
Definition set_df (t : list Row) : M unit :=
  λ s, ({| filtered_df := t; rendered := rendered s |}, Ok ()).
Definition render (w : Widget) : M unit :=
  λ s, ({| filtered_df := filtered_df s; rendered := rendered s ++ [w] |}, Ok ()).
Definition raise {A} (e : exn) : M A := λ s, (s, Raise e).

(** [int(x)] on the result of [Index.min()]. *)
Definition int (x : option Z) : M Z :=
  match x with
  | Some v => mret v
  | None => raise (ValueError "cannot convert float NaN to integer")
  end.

(** Tab 1 (lines 102-104) *)
Definition tab1 : M unit :=
  fdf ← get_df;
  render (DataTable fdf).

(** [round(filtered_df['statistics_height'], 0)], cell by cell. *)
Definition round_height (r : Row) : Row :=
  {| row_name := row_name r;
     row_city := row_city r;
     row_country := row_country r;
     row_latitude := row_latitude r;
     row_longitude := row_longitude r;
     row_height := round0 <$> row_height r;
     row_year := row_year r |}.

(** [st.selectbox(..., index=0)]: the option the user picked, the first
    one if there is no such option. *)
Definition selectbox (options : list string) (choice : nat) : string :=
  default (default EmptyString (head options)) (options !! choice).

(** Tab 2 (lines 107-152).  Line 111 assigns the rounded column to
    [filtered_df] before the emptiness test. *)
Definition tab2 (choice : nat) : M unit :=
  fdf ← get_df;
  _ ← set_df (round_height <$> fdf);
  fdf ← get_df;
  if bool_decide (fdf ≠ []) then
    let unique_cities := unique (row_city <$> fdf) in
    let selected_city := selectbox unique_cities choice in
    let city_data := filter (λ r, row_city r = selected_city) fdf in
    render (DeckChart selected_city
              (series_mean (row_latitude <$> city_data))
              (series_mean (row_longitude <$> city_data))
              city_data)
  else
    render (Text "No data available or missing latitude/longitude columns for visualization.").

(** [filtered_df[filtered_df['statistics_height'] > 0]] *)
Definition height_gt (h : option Qc) (b : Qc) : bool :=
  match h with Some v => bool_decide (b < v)%Qc | None => false end.

Definition nonzero (fdf : list Row) : list Row :=
  filter (λ r, height_gt (row_height r) (Qc_of_Z 0)) fdf.

Definition summarise (filtered_df_nonzero : list Row) : Summary :=
  let heights := row_height <$> filtered_df_nonzero in
  {| tallest := series_max heights;
     shortest := series_min heights;
     average := round2 <$> series_mean heights;
     median_height := series_median heights;
     number := length filtered_df_nonzero |}.

(** Tab 3 (lines 155-171) *)
Definition tab3 : M unit :=
  fdf ← get_df;
  let filtered_df_nonzero := nonzero fdf in
  render (SummaryTable (summarise filtered_df_nonzero)).

(** Tab 4 (lines 174-186) *)
Definition city_counts (fdf : list Row) : list (string * nat) :=
  take 10 (value_counts (row_city <$> fdf)).

Definition tab4 : M unit :=
  fdf ← get_df;
  render (BarChart (city_counts fdf)).

(** Tab 5 (lines 189-203) *)
Definition tab5 : M unit :=
  fdf ← get_df;
  let year_counts := sort_index (value_counts (dropna (row_year <$> fdf))) in
  start ← int (index_min year_counts.*1);
  let all_years := (λ y, (y, 0%nat)) <$> range_index start 2025 in
  let year_counts := sort_index (series_add_fill0 all_years year_counts) in
  render (LineChart year_counts).

(** Tab 6 (lines 206-217) *)
Definition tab6 : M unit :=
  fdf ← get_df;
  if bool_decide (fdf ≠ []) then render (DownloadButton fdf)
  else render (Text "No data available for download.").

(** Lines 76-217: filter, drop the columns, run the tabs in order. *)
Definition tabs (choice : nat) : M unit :=
  _ ← tab1; _ ← tab2 choice; _ ← tab3; _ ← tab4; _ ← tab5; tab6.

Definition start_state (fdf : list Row) : State :=
  {| filtered_df := fdf; rendered := [] |}.

Definition dashboard (df : list Record_) (year_range : Z * Z)
    (height_range : Z * Z) (city_filter : list string) (choice : nat)
    : State * result unit :=
  let fdf := filter_engine df year_range
               (slider_heights height_range.1 height_range.2) city_filter in
  tabs choice (start_state (project fdf)).

(** The six views, for statements that range over them. *)
Inductive View := TableView | MapView | StatisticsView | TopCitiesView
                | TrendView | ExportView.

Definition view_tab (choice : nat) (v : View) : M unit :=
  match v with
  | TableView => tab1
  | MapView => tab2 choice
  | StatisticsView => tab3
  | TopCitiesView => tab4
  | TrendView => tab5
  | ExportView => tab6
  end.

(** The table a tab leaves in [filtered_df], and what it renders, when it
    is run on the table [fdf]. *)
Definition table_after {A} (m : M A) (fdf : list Row) : list Row :=
  filtered_df (m (start_state fdf)).1.

Definition widgets_of {A} (m : M A) (fdf : list Row) : list Widget :=
  rendered (m (start_state fdf)).1.

Definition outcome {A} (m : M A) (fdf : list Row) : result A :=
  (m (start_state fdf)).2.

(** Rewrites the city of a record; used to state that a result does not
    depend on the city column. *)
Definition with_city (f : string → string) (r : Record_) : Record_ :=
  {| id_ := id_ r;
     name := name r;
     location_city := f (location_city r);
     location_country := location_country r;
     location_latitude := location_latitude r;
     location_longitude := location_longitude r;
     statistics_height := statistics_height r;
     status_completed_year := status_completed_year r;
     purposes := purposes r |}.

(** The tabs that have run when the view [v] starts, and the table that
    the view then reads from [filtered_df]. *)
Definition before (choice : nat) (v : View) : M unit :=
  match v with
  | TableView => mret ()
  | MapView => tab1
  | StatisticsView => _ ← tab1; tab2 choice
  | TopCitiesView => _ ← tab1; _ ← tab2 choice; tab3
  | TrendView => _ ← tab1; _ ← tab2 choice; _ ← tab3; tab4
  | ExportView => _ ← tab1; _ ← tab2 choice; _ ← tab3; _ ← tab4; tab5
  end.

Definition seen_by (choice : nat) (v : View) (fdf : list Row) : list Row :=
  table_after (before choice v) fdf.

(** The completed years present in a table. *)
Definition years_of (fdf : list Row) : list Z := dropna (row_year <$> fdf).

(** A densified series from the year [m]: [2025 - m] entries, one per
    consecutive year, with count 0 for a year that is not in the data. *)
Definition dense_from (m : Z) (years : list Z) (points : list (Z * nat))
    : Prop :=
  length points = Z.to_nat (2025 - m) ∧
  points.*1 = seqZ m (2025 - m) ∧
  ∀ y n, (y, n) ∈ points → y ∉ years → n = 0%nat.

(** The summary of a table with no finite height: every statistic is NaN
    and the count is 0. *)
Definition no_numbers : Summary :=
  {| tallest := None; shortest := None; average := None;
     median_height := None; number := 0 |}.

(** ** Column labels (lines 13 and 86-94) *)

(** [str.replace('.', '_')] on one label: every dot becomes an underscore. *)
Fixpoint replace_dots (label : string) : string :=
  match label with
  | EmptyString => EmptyString
  | String c rest =>
      String (if Ascii.eqb c "."%char then "_"%char else c) (replace_dots rest)
  end.

(** [df.columns.str.replace('.', '_')] *)
Definition rename_columns (columns : list string) : list string :=
  replace_dots <$> columns.

Definition columns_to_exclude : list string :=
  [ "id"; "location_city_id"; "location_country id"; "purposes_abandoned";
    "purposes_air traffic control tower"; "purposes_belltower";
    "purposes_bridge"; "purposes_casino"; "purposes_commercial";
    "purposes_education"; "purposes_exhibition"; "purposes_government";
    "purposes_hospital"; "purposes_hotel"; "purposes_industrial";
    "purposes_library"; "purposes_multiple"; "purposes_museum";
    "purposes_observation"; "purposes_office"; "purposes_other";
    "purposes_religious"; "purposes_residential"; "purposes_retail";
    "purposes_serviced apartments"; "purposes_telecommunications";
    "status_completed_is completed"; "status_started_is started" ]%string.

(** [DataFrame.drop(columns=labels)] on the column index: [KeyError] when
    a label is not a column, otherwise the other columns in their order. *)
Definition drop (columns labels : list string) : result (list string) :=
  match filter (λ l, l ∉ columns) labels with
  | [] => Ok (filter (λ c, c ∉ labels) columns)
  | _ :: _ => Raise (KeyError "not found in axis")
  end.

(** The columns that the filters and the tabs read. *)
Definition columns_read : list string :=
  [ "location_city"; "location_latitude"; "location_longitude";
    "statistics_height"; "status_completed_year" ]%string.

(** ** Slider bounds (lines 57-68) *)

(** [Index.max()] / [Series.max()] on whole numbers. *)
Definition index_max (idx : list Z) : option Z :=
  match idx with
  | [] => None
  | x :: idx' => Some (foldr Z.max x idx')
  end.

(** [int(x)] on a float that holds a whole number or NaN. *)
Definition int_of_year (x : option Z) : result Z :=
  match x with
  | Some v => Ok v
  | None => Raise (ValueError "cannot convert float NaN to integer")
  end.

(** [int(x)] on a float: truncation towards zero, [ValueError] on NaN. *)
Definition truncate (q : Qc) : Z := Z.quot (Qnum q) (Z.pos (Qden q)).

Definition int_of_float (x : option Qc) : result Z :=
  match x with
  | Some q => Ok (truncate q)
  | None => Raise (ValueError "cannot convert float NaN to integer")
  end.

(** The bounds of the year slider: [int(min)], then [int(max)]. *)
Definition year_bounds (df : list Record_) : result (Z * Z) :=
  let years := dropna (status_completed_year <$> df) in
  match int_of_year (index_min years) with
  | Raise e => Raise e
  | Ok lo =>
      match int_of_year (index_max years) with
      | Raise e => Raise e
      | Ok hi => Ok (lo, hi)
      end
  end.

(** The bounds of the height slider. *)
Definition height_bounds (df : list Record_) : result (Z * Z) :=
  let heights := statistics_height <$> df in
  match int_of_float (series_min heights) with
  | Raise e => Raise e
  | Ok lo =>
      match int_of_float (series_max heights) with
      | Raise e => Raise e
      | Ok hi => Ok (lo, hi)
      end
  end.

(** The options of the city multiselect (line 71). *)
Definition city_options (df : list Record_) : list string :=
  unique (location_city <$> df).

(** ** Sample data *)

Module Sample.
Definition metres (n : Z) (d : positive) : Qc := Q2Qc (n # d).

Definition csv_tower (i : Z) (city : option string) (h : Qc) (y : Z)
    : CsvRow :=
  mkCsvRow i "Tower" city "US" (Some (metres 407 10))
    (Some (metres (-740) 10)) (Some h) (Some y) [true; false].

(** Three dated towers and one whose completed year is the sentinel 0. *)
Definition csv : list CsvRow :=
  [ csv_tower 1 (Some "Chicago") (metres 4420 10) 1998;
    csv_tower 2 (Some "New York") (metres 3811 10) 1998;
    csv_tower 3 None (metres 1004 10) 2005;
    csv_tower 4 (Some "Chicago") (metres 905 10) 0 ].

Definition df : list Record_ := load csv.

Definition row (city : string) (h : Qc) (y : Z) : Row :=
  mkRow "Tower" city "US" (Some (metres 407 10)) (Some (metres (-740) 10))
    (Some h) (Some y).

(** A filtered subset with one tower of 100.4 m. *)
Definition one : list Row := [row "Chicago" (metres 1004 10) 1998].

(** Completed years 2020, 2022 and 2022. *)
Definition recent : list Row :=
  [ row "Dubai" (metres 8280 10) 2020;
    row "Chicago" (metres 3000 10) 2022;
    row "Dubai" (metres 2500 10) 2022 ].

(** Completed years 2020 and 2030. *)
Definition planned : list Row :=
  [ row "Dubai" (metres 8280 10) 2020;
    row "Jeddah" (metres 10000 10) 2030 ].

(** A table whose tallest tower is 828.3 m high. *)
Definition spires : list Record_ :=
  load [ csv_tower 1 (Some "Dubai") (metres 8283 10) 2010;
         csv_tower 2 (Some "Chicago") (metres 4420 10) 1998 ].
End Sample.

(** * Filter engine *)

Section FilterEngine.
Implicit Types (df : list Record_) (r : Record_).
Implicit Types (year_range : Z * Z) (height_range : Qc * Qc).
Implicit Types (city_filter : list string).

Lemma range_mask_spec year_range height_range r :
  range_mask year_range height_range r ↔
  year_in year_range r ∧ height_in height_range r.
Proof.
  unfold range_mask, year_in, height_in, year_ge, year_le, height_ge, height_le.
  destruct (status_completed_year r) as [y|], (statistics_height r) as [h|];
    rewrite ?andb_True, ?bool_decide_spec; simpl.
  - split.
    + intros [[[? ?] ?] ?]. eauto 10.
    + intros [(y' & [= <-] & ? & ?) (h' & [= <-] & ? & ?)]. auto.
  - split; [tauto|]. intros [_ (h' & [=] & _)].
  - split; [tauto|]. intros [(y' & [=] & _) _].
  - split; [tauto|]. intros [(y' & [=] & _) _].
Qed.

Lemma isin_spec city_filter r :
  isin city_filter r ↔ location_city r ∈ city_filter.
Proof. unfold isin. apply bool_decide_spec. Qed.

Lemma filter_engine_elem df year_range height_range city_filter r :
  r ∈ filter_engine df year_range height_range city_filter ↔
  r ∈ df ∧ satisfies year_range height_range city_filter r.
Proof.
  unfold filter_engine, satisfies, city_in.
  destruct city_filter as [|c cs]; simpl.
  - rewrite list_elem_of_filter, range_mask_spec. intuition.
  - rewrite !list_elem_of_filter, range_mask_spec, isin_spec.
    intuition discriminate.
Qed.

Lemma filter_twice {A} (P : A → Prop) `{∀ x, Decision (P x)} (l : list A) :
  filter P (filter P l) = filter P l.
Proof. rewrite list_filter_filter. apply list_filter_iff. tauto. Qed.

Lemma nan_year_excluded df year_range height_range city_filter r :
  status_completed_year r = None →
  r ∉ filter_engine df year_range height_range city_filter.
Proof.
  intros Hnan [_ [(y & Hy & _) _]]%filter_engine_elem. congruence.
Qed.

Lemma range_mask_with_city f year_range height_range r :
  range_mask year_range height_range (with_city f r) =
  range_mask year_range height_range r.
Proof. reflexivity. Qed.

(** C1. For valid ranges the output of the filter engine is a subset of
    the input table, every retained record satisfies the year predicate,
    the height predicate and the city predicate, and no excluded record
    of the table satisfies all three. *)
Theorem filter_engine_contract df year_range height_range city_filter :
  year_range.1 ≤ year_range.2 →
  (height_range.1 ≤ height_range.2)%Qc →
  filter_engine df year_range height_range city_filter ⊆ df ∧
  (∀ r, r ∈ filter_engine df year_range height_range city_filter →
        satisfies year_range height_range city_filter r) ∧
  (∀ r, r ∈ df →
        r ∉ filter_engine df year_range height_range city_filter →
        ¬ satisfies year_range height_range city_filter r).
Proof.
  intros _ _. split; [|split].
  - intros r Hr. by apply filter_engine_elem in Hr as [? _].
  - intros r Hr. by apply filter_engine_elem in Hr as [_ ?].
  - intros r Hin Hout Hsat. apply Hout, filter_engine_elem. auto.
Qed.

(** C2. A record whose completed year is the zero sentinel has an unknown
    year after loading, and the filter engine excludes it whatever the
    year range, the height range and the city selection are. *)
Theorem unknown_year_excluded (c : CsvRow) df year_range height_range
    city_filter :
  csv_status_completed_year c = Some 0 →
  status_completed_year (clean c) = None ∧
  clean c ∉ filter_engine df year_range height_range city_filter.
Proof.
  intros Hzero.
  assert (status_completed_year (clean c) = None) as Hnan
    by (simpl; by rewrite Hzero).
  split; [done|]. by apply nan_year_excluded.
Qed.

(** C8. With no city selected the output is the table filtered on the
    year and height comparisons alone: a record is retained exactly when
    it satisfies these two predicates, and rewriting the city column
    does not change which rows are retained. *)
Theorem empty_city_selection df year_range height_range :
  filter_engine df year_range height_range [] =
    filter (λ r, range_mask year_range height_range r) df ∧
  (∀ r, r ∈ filter_engine df year_range height_range [] ↔
        r ∈ df ∧ year_in year_range r ∧ height_in height_range r) ∧
  (∀ f, filter_engine (with_city f <$> df) year_range height_range [] =
        with_city f <$> filter_engine df year_range height_range []).
Proof.
  split; [done|]. split.
  - intros r. unfold filter_engine; simpl.
    rewrite list_elem_of_filter, range_mask_spec. tauto.
  - intros f. unfold filter_engine; simpl.
    induction df as [|r df IH]; [done|].
    rewrite fmap_cons, !filter_cons, range_mask_with_city.
    destruct (decide _); by rewrite ?fmap_cons, IH.
Qed.

(** C9. Filtering is idempotent: the filter engine applied to its own
    output with the same parameters returns that output. *)
Theorem filter_engine_idempotent df year_range height_range city_filter :
  filter_engine (filter_engine df year_range height_range city_filter)
    year_range height_range city_filter =
  filter_engine df year_range height_range city_filter.
Proof.
  unfold filter_engine. destruct city_filter as [|c cs]; simpl.
  - apply filter_twice.
  - rewrite !list_filter_filter. apply list_filter_iff. tauto.
Qed.

(** C10. The output of the filter engine is a subsequence of the input
    table: rows keep their relative order and none is repeated. *)
Theorem filter_engine_sublist df year_range height_range city_filter :
  filter_engine df year_range height_range city_filter `sublist_of` df.
Proof.
  unfold filter_engine. destruct (truthy city_filter).
  - etrans; apply sublist_filter.
  - apply sublist_filter.
Qed.

End FilterEngine.

Section FilterEngineExamples.
Import Sample.

Lemma Qc_of_Z_le_intro (n m : Z) : n ≤ m → (Qc_of_Z n ≤ Qc_of_Z m)%Qc.
Proof. apply Z2Qc_inj_le. Qed.

(** The example of the specification: completed years 1998, 1998 and
    2005; the range (1990, 2010) keeps all three dated towers and
    (2000, 2010) keeps the 2005 one only. *)
Example filter_years_1990_2010 :
  id_ <$> filter_engine df (1990, 2010) (slider_heights 0 1609) [] = [1; 2; 3].
Proof. vm_compute. reflexivity. Qed.

Example filter_years_2000_2010 :
  id_ <$> filter_engine df (2000, 2010) (slider_heights 0 1609) [] = [3].
Proof. vm_compute. reflexivity. Qed.

Example filter_city_chicago :
  id_ <$> filter_engine df (0, 2010) (slider_heights 0 1609) ["Chicago"%string]
    = [1].
Proof. vm_compute. reflexivity. Qed.

Lemma filter_engine_contract_witness :
  (2000, 2010).1 ≤ (2000, 2010).2 ∧
  ((slider_heights 0 1609).1 ≤ (slider_heights 0 1609).2)%Qc ∧
  filter_engine df (2000, 2010) (slider_heights 0 1609) ["Unknown"%string] ⊆ df ∧
  (∀ r, r ∈ filter_engine df (2000, 2010) (slider_heights 0 1609)
              ["Unknown"%string] →
        satisfies (2000, 2010) (slider_heights 0 1609) ["Unknown"%string] r) ∧
  (∀ r, r ∈ df →
        r ∉ filter_engine df (2000, 2010) (slider_heights 0 1609)
              ["Unknown"%string] →
        ¬ satisfies (2000, 2010) (slider_heights 0 1609) ["Unknown"%string] r).
Proof.
  assert ((2000, 2010).1 ≤ (2000, 2010).2) as Hy by (simpl; lia).
  assert ((slider_heights 0 1609).1 ≤ (slider_heights 0 1609).2)%Qc as Hh
    by (apply Qc_of_Z_le_intro; lia).
  split; [exact Hy|]. split; [exact Hh|].
  exact (filter_engine_contract df (2000, 2010) (slider_heights 0 1609)
           ["Unknown"%string] Hy Hh).
Defined.

Lemma unknown_year_excluded_witness :
  csv_status_completed_year (csv_tower 4 (Some "Chicago"%string)
                               (metres 905 10) 0) = Some 0 ∧
  status_completed_year
    (clean (csv_tower 4 (Some "Chicago"%string) (metres 905 10) 0)) = None ∧
  clean (csv_tower 4 (Some "Chicago"%string) (metres 905 10) 0)
    ∉ filter_engine df (0, 2010) (slider_heights 0 1609) [].
Proof.
  split; [reflexivity|].
  apply (unknown_year_excluded
           (csv_tower 4 (Some "Chicago"%string) (metres 905 10) 0)
           df (0, 2010) (slider_heights 0 1609) []).
  reflexivity.
Defined.

End FilterEngineExamples.

(** * Sorting and counting *)

Section StableSortFacts.
Context {A} (R : relation A) `{∀ x y, Decision (R x y)}.

Lemma place_Permutation x l : place R x l ≡ₚ x :: l.
Proof.
  induction l as [|y l IH]; simpl; [done|].
  destruct (decide (R x y)); [done|].
  rewrite IH. apply Permutation_swap.
Qed.

Lemma stable_sort_Permutation l : stable_sort R l ≡ₚ l.
Proof.
  induction l as [|x l IH]; simpl; [done|].
  by rewrite place_Permutation, IH.
Qed.

Lemma HdRel_place `{!Total R} x y l :
  ¬ R x y → HdRel R y l → HdRel R y (place R x l).
Proof.
  intros Hxy Hy. destruct l as [|z l]; simpl.
  - constructor. by destruct (total R x y).
  - destruct (decide (R x z)); constructor.
    + by destruct (total R x y).
    + by inv Hy.
Qed.

Lemma Sorted_place `{!Total R} x l : Sorted R l → Sorted R (place R x l).
Proof.
  induction 1 as [|y l Hl IH Hy]; simpl.
  - by repeat constructor.
  - destruct (decide (R x y)).
    + by repeat constructor.
    + constructor; [done|]. by apply HdRel_place.
Qed.

Lemma Sorted_stable_sort `{!Total R} l : Sorted R (stable_sort R l).
Proof.
  induction l as [|x l IH]; simpl; [constructor|]. by apply Sorted_place.
Qed.

(** Sorting a sorted list returns it. *)
Lemma stable_sort_sorted l : Sorted R l → stable_sort R l = l.
Proof.
  induction 1 as [|x l Hl IH Hx]; simpl; [done|].
  rewrite IH. destruct Hx as [|y l Hxy]; simpl; [done|].
  by rewrite decide_True.
Qed.

Lemma StronglySorted_take n l : StronglySorted R l → StronglySorted R (take n l).
Proof.
  intros Hl. revert n.
  induction Hl as [|x l Hl IH Hx]; intros [|n]; simpl; try constructor.
  - apply IH.
  - eapply Forall_impl; [by apply Forall_take|]. done.
Qed.
End StableSortFacts.

Global Instance by_count_desc_trans {K} : Transitive (@by_count_desc K).
Proof. intros a b c. unfold by_count_desc. lia. Qed.

Global Instance by_count_desc_total {K} : Total (@by_count_desc K).
Proof. intros a b. unfold by_count_desc. lia. Qed.

Global Instance by_label_total : Total by_label.
Proof. intros a b. unfold by_label. lia. Qed.

Section Counting.
Context `{EqDecision K}.
Implicit Types (col : list K) (k : K).

Lemma elem_of_unique col k : k ∈ unique col ↔ k ∈ col.
Proof.
  induction col as [|x col IH]; simpl; [done|].
  rewrite !elem_of_cons, list_elem_of_filter, IH.
  destruct (decide (k = x)); intuition congruence.
Qed.

Lemma NoDup_unique col : NoDup (unique col).
Proof.
  induction col as [|x col IH]; simpl; [constructor|].
  constructor.
  - rewrite list_elem_of_filter. by intros [Hne _].
  - by apply NoDup_filter.
Qed.

Lemma occurrences_pos col k : k ∈ col ↔ (0 < occurrences k col)%nat.
Proof.
  unfold occurrences. induction col as [|x col IH]; simpl.
  - split; [by intros ?%elem_of_nil|lia].
  - rewrite filter_cons, elem_of_cons. destruct (decide (x = k)); simpl.
    + split; [lia|auto].
    + rewrite <-IH. intuition congruence.
Qed.

Lemma occurrences_absent col k : k ∉ col → occurrences k col = 0%nat.
Proof. rewrite occurrences_pos. lia. Qed.

(** The entries of [value_counts]: the distinct values, each once, each
    with the number of its occurrences. *)
Lemma value_counts_Permutation col :
  value_counts col ≡ₚ (λ k, (k, occurrences k col)) <$> unique col.
Proof. apply stable_sort_Permutation. Qed.

Lemma value_counts_labels col : (value_counts col).*1 ≡ₚ unique col.
Proof.
  rewrite value_counts_Permutation, <-list_fmap_compose.
  generalize (unique col). intros u.
  induction u as [|x u IH]; simpl; [done|]. by rewrite IH.
Qed.

Lemma elem_of_value_counts col k n :
  (k, n) ∈ value_counts col ↔ k ∈ col ∧ n = occurrences k col.
Proof.
  rewrite value_counts_Permutation, list_elem_of_fmap.
  setoid_rewrite elem_of_unique. split.
  - by intros (k' & [= -> ->] & ?).
  - intros [? ->]. by exists k.
Qed.

Lemma value_counts_sorted col : StronglySorted by_count_desc (value_counts col).
Proof. apply Sorted_StronglySorted; [apply _|]. apply Sorted_stable_sort, _. Qed.

(** Reading a Series whose labels are distinct. *)
Lemma series_get_Some (s : list (K * nat)) k v :
  NoDup s.*1 → (k, v) ∈ s → series_get s k = Some v.
Proof.
  induction s as [|[k' v'] s IH]; simpl; [by intros _ ?%elem_of_nil|].
  intros [Hk' Hs]%NoDup_cons [[= -> ->]|Hin]%elem_of_cons.
  - by rewrite decide_True.
  - rewrite decide_False; [by apply IH|].
    intros ->. apply Hk'. apply list_elem_of_fmap. by exists (k, v).
Qed.

Lemma series_get_None (s : list (K * nat)) k :
  k ∉ s.*1 → series_get s k = None.
Proof.
  induction s as [|[k' v'] s IH]; simpl; [done|].
  rewrite not_elem_of_cons. intros [? ?]. by rewrite decide_False; auto.
Qed.
End Counting.

(** * Trend over time (tab 5) *)

Section Trend.
Implicit Types (fdf : list Row) (years idx : list Z) (m k : Z).

Lemma foldr_min_spec x idx :
  foldr Z.min x idx ∈ x :: idx ∧ Forall (λ y, foldr Z.min x idx ≤ y) (x :: idx).
Proof.
  induction idx as [|y idx [IHin IHle]]; simpl.
  - split; [left|]. by repeat constructor.
  - inv IHle. destruct (Z.min_spec y (foldr Z.min x idx)) as [[? ->]|[? ->]].
    + split; [right; left|]. constructor; [lia|]. constructor; [lia|].
      eapply Forall_impl; [done|]. simpl. intros; lia.
    + split.
      * apply elem_of_cons in IHin as [->|?]; [left|right; by right].
      * constructor; [done|]. by constructor.
Qed.

Lemma index_min_spec idx m :
  index_min idx = Some m ↔ m ∈ idx ∧ Forall (λ y, m ≤ y) idx.
Proof.
  destruct idx as [|x idx]; simpl.
  - split; [done|]. by intros [?%elem_of_nil _].
  - destruct (foldr_min_spec x idx) as [Hin Hle]. split.
    + by intros [= <-].
    + intros [Hm Hall]. f_equal.
      rewrite Forall_forall in Hle, Hall.
      specialize (Hle _ Hm). specialize (Hall _ Hin). lia.
Qed.

Lemma index_min_None idx : index_min idx = None ↔ idx = [].
Proof. by destruct idx. Qed.

(** [Index.min()] depends on the set of labels only. *)
Lemma index_min_ext idx idx' :
  (∀ y, y ∈ idx ↔ y ∈ idx') → index_min idx = index_min idx'.
Proof.
  intros Hext. destruct (index_min idx') as [m|] eqn:Hm.
  - apply index_min_spec in Hm as [Hin Hle]. apply index_min_spec.
    split; [by apply Hext|]. rewrite Forall_forall in Hle |- *.
    intros y Hy. by apply Hle, Hext.
  - apply index_min_None in Hm as ->. apply index_min_None.
    destruct idx as [|x idx]; [done|].
    exfalso. apply (not_elem_of_nil x), Hext. left.
Qed.

Lemma year_counts_labels years y :
  y ∈ (sort_index (value_counts years)).*1 ↔ y ∈ years.
Proof.
  unfold sort_index.
  by rewrite stable_sort_Permutation, value_counts_labels, elem_of_unique.
Qed.

Lemma year_counts_NoDup years :
  NoDup (sort_index (value_counts years)).*1.
Proof.
  unfold sort_index.
  rewrite stable_sort_Permutation, value_counts_labels. apply NoDup_unique.
Qed.

Lemma year_counts_get years k :
  default 0%nat (series_get (sort_index (value_counts years)) k)
  = occurrences k years.
Proof.
  destruct (decide (k ∈ years)) as [Hin|Hout].
  - rewrite (series_get_Some _ k (occurrences k years)); [done| |].
    + apply year_counts_NoDup.
    + unfold sort_index. rewrite stable_sort_Permutation.
      by apply elem_of_value_counts.
  - rewrite series_get_None, occurrences_absent; [done..|].
    by rewrite year_counts_labels.
Qed.

Lemma all_years_get idx k :
  default 0%nat (series_get ((λ y, (y, 0%nat)) <$> idx) k) = 0%nat.
Proof.
  induction idx as [|x idx IH]; simpl; [done|]. by destruct (decide (x = k)).
Qed.

Lemma all_years_labels idx : ((λ y : Z, (y, 0%nat)) <$> idx).*1 = idx.
Proof. induction idx as [|x idx IH]; [done|]. simpl. f_equal. exact IH. Qed.

Lemma filter_new_labels_nil (ia ib : list Z) :
  Forall (λ k, k ∈ ia) ib → filter (λ k, k ∉ ia) ib = [].
Proof.
  induction 1 as [|k ib Hk _ IH]; [done|].
  by rewrite filter_cons, decide_False by tauto.
Qed.

Lemma Sorted_by_label_seqZ (f : Z → nat) (len : nat) m :
  Sorted by_label ((λ y, (y, f y)) <$> seqZ m (Z.of_nat len)).
Proof.
  revert m. induction len as [|len IH]; intros m.
  - rewrite seqZ_nil by lia. constructor.
  - rewrite seqZ_cons by lia.
    replace (Z.pred (Z.of_nat (S len))) with (Z.of_nat len) by lia.
    rewrite fmap_cons. constructor; [apply IH|].
    destruct len as [|len].
    + rewrite seqZ_nil by lia. constructor.
    + rewrite seqZ_cons by lia. constructor. unfold by_label; simpl. lia.
Qed.

(** What tab 5 does, by the minimum of the years present. *)
Lemma tab5_run (s : State) :
  tab5 s =
  match index_min (years_of (filtered_df s)) with
  | None => (s, Raise (ValueError "cannot convert float NaN to integer"))
  | Some start =>
      (mkState (filtered_df s)
         (rendered s ++
          [LineChart
             (sort_index
                (series_add_fill0
                   ((λ y, (y, 0%nat)) <$> range_index start 2025)
                   (sort_index (value_counts (years_of (filtered_df s))))))]),
       Ok ())
  end.
Proof.
  unfold tab5, mbind, M_bind, get_df, years_of.
  rewrite (index_min_ext _ (dropna (row_year <$> filtered_df s)))
    by apply year_counts_labels.
  by destruct (index_min _).
Qed.

(** The plotted series when every year present is below the fixed stop. *)
Lemma trend_points years m :
  index_min years = Some m →
  Forall (λ y, y < 2025) years →
  sort_index
    (series_add_fill0 ((λ y, (y, 0%nat)) <$> range_index m 2025)
       (sort_index (value_counts years)))
  = (λ y, (y, occurrences y years)) <$> seqZ m (2025 - m).
Proof.
  intros [Hm Hle]%index_min_spec Hlt.
  rewrite Forall_forall in Hle, Hlt.
  unfold series_add_fill0, index_union, range_index.
  rewrite all_years_labels, filter_new_labels_nil, app_nil_r.
  - erewrite list_fmap_ext.
    + unfold sort_index. apply stable_sort_sorted.
      replace (2025 - m) with (Z.of_nat (Z.to_nat (2025 - m)))
        by (specialize (Hlt _ Hm); lia).
      apply (Sorted_by_label_seqZ (λ y, occurrences y years)).
    + intros i k _. simpl. by rewrite all_years_get, year_counts_get.
  - apply Forall_forall. intros k Hk.
    apply (proj1 (year_counts_labels years k)) in Hk.
    apply elem_of_seqZ. specialize (Hle _ Hk). specialize (Hlt _ Hk). lia.
Qed.

End Trend.

Section TrendClaims.
Import Sample.

(** C4 (amended). For a filtered subset whose completed years are all
    below 2025 and whose minimum present year is [m], tab 5 plots exactly
    [2025 - m] points, one for each consecutive year from [m] to 2024, each
    with the number of records completed in that year, so a year absent
    from the data has count 0. *)
Theorem trend_dense_below_2025 (fdf : list Row) (m : Z) :
  index_min (years_of fdf) = Some m →
  Forall (λ y, y < 2025) (years_of fdf) →
  ∃ points,
    tab5 (start_state fdf) = (mkState fdf [LineChart points], Ok ()) ∧
    dense_from m (years_of fdf) points ∧
    (∀ y n, (y, n) ∈ points → n = occurrences y (years_of fdf)).
Proof.
  intros Hmin Hlt.
  exists ((λ y, (y, occurrences y (years_of fdf))) <$> seqZ m (2025 - m)).
  split; [|split; [split; [|split]|]].
  - rewrite tab5_run. simpl. rewrite Hmin. by rewrite trend_points.
  - by rewrite length_fmap, length_seqZ.
  - rewrite <-list_fmap_compose. generalize (seqZ m (2025 - m)).
    intros l. induction l as [|x l IH]; [done|]. simpl. f_equal. exact IH.
  - intros y n (y' & [= -> ->] & _)%list_elem_of_fmap Hout.
    by apply occurrences_absent.
  - by intros y n (y' & [= -> ->] & _)%list_elem_of_fmap.
Qed.

Lemma trend_dense_below_2025_witness :
  index_min (years_of recent) = Some 2020 ∧
  Forall (λ y, y < 2025) (years_of recent) ∧
  ∃ points,
    tab5 (start_state recent) = (mkState recent [LineChart points], Ok ()) ∧
    dense_from 2020 (years_of recent) points ∧
    (∀ y n, (y, n) ∈ points → n = occurrences y (years_of recent)).
Proof.
  assert (index_min (years_of recent) = Some 2020) as Hmin by reflexivity.
  assert (Forall (λ y, y < 2025) (years_of recent)) as Hlt
    by (repeat constructor; simpl; lia).
  split; [exact Hmin|]. split; [exact Hlt|].
  exact (trend_dense_below_2025 recent 2020 Hmin Hlt).
Defined.

Example trend_recent :
  widgets_of tab5 recent =
  [LineChart [(2020, 1%nat); (2021, 0%nat); (2022, 2%nat); (2023, 0%nat);
              (2024, 0%nat)]].
Proof. vm_compute. reflexivity. Qed.

(** With a year beyond the stop of the range index the union of the two
    indexes keeps that year: six points for 2020..2024 and 2030. *)
Example trend_planned :
  widgets_of tab5 planned =
  [LineChart [(2020, 1%nat); (2021, 0%nat); (2022, 0%nat); (2023, 0%nat);
              (2024, 0%nat); (2030, 1%nat)]].
Proof. vm_compute. reflexivity. Qed.

(** C4 as stated fails: the subset with years 2020 and 2030 has minimum
    year 2020 but tab 5 plots six points, with a gap after 2024. *)
Lemma trend_not_dense_with_later_years :
  ¬ (∀ (fdf : list Row) (m : Z),
       index_min (years_of fdf) = Some m →
       ∃ points, widgets_of tab5 fdf = [LineChart points] ∧
                 dense_from m (years_of fdf) points).
Proof.
  intros Hclaim.
  destruct (Hclaim planned 2020 eq_refl) as (points & Hw & Hlen & _).
  rewrite trend_planned in Hw. injection Hw as <-. discriminate Hlen.
Qed.

End TrendClaims.

(** * Empty filtered subset *)

Section EmptySubset.
Import Sample.

(** Tab 5 raises exactly when no completed year is present, which for a
    filter output (no NaN year passes the mask) means an empty subset. *)
Lemma tab5_raises_iff_no_year (fdf : list Row) :
  outcome tab5 fdf = Raise (ValueError "cannot convert float NaN to integer")
  ↔ years_of fdf = [].
Proof.
  unfold outcome. rewrite tab5_run. simpl.
  destruct (index_min (years_of fdf)) as [m|] eqn:Hmin; simpl.
  - split; [done|]. intros Hnil. by rewrite Hnil in Hmin.
  - by apply index_min_None in Hmin.
Qed.

Lemma filtered_years_present df year_range height_range city_filter :
  length (years_of (project
            (filter_engine df year_range height_range city_filter)))
  = length (filter_engine df year_range height_range city_filter).
Proof.
  assert (∀ l : list Record_,
            Forall (λ r, status_completed_year r ≠ None) l →
            length (years_of (project l)) = length l) as Hlen.
  { induction 1 as [|r l Hr _ IH]; [done|].
    unfold years_of, project, dropna in *. rewrite !fmap_cons. simpl.
    destruct (status_completed_year r); [|done]. simpl. by f_equal. }
  apply Hlen, Forall_forall. intros r Hr Hnan.
  by apply (nan_year_excluded df year_range height_range city_filter r).
Qed.

(** C3 (fails on the code). On an empty filtered subset tabs 1 to 4 render
    an empty table, the map message, a summary without numbers and an
    empty bar chart; tab 5 then raises [ValueError], and tab 6 is not
    reached.  The year range (2010, 2020) empties the sample table. *)
Theorem empty_subset_trend_raises (choice : nat) :
  tabs choice (start_state []) =
    (mkState []
       [ DataTable [];
         Text "No data available or missing latitude/longitude columns for visualization.";
         SummaryTable no_numbers;
         BarChart [] ],
     Raise (ValueError "cannot convert float NaN to integer")) ∧
  dashboard df (2010, 2020) (0, 1609) [] choice = tabs choice (start_state []) ∧
  tab6 (start_state []) =
    (mkState [] [Text "No data available for download."], Ok ()).
Proof. split; [|split]; reflexivity. Qed.

End EmptySubset.

(** * Top cities (tab 4) *)

(** C7. Tab 4 plots at most 10 (city, count) bars, sorted by descending
    count; each count is the number of rows of that city. *)
Theorem top_cities_at_most_ten_sorted (fdf : list Row) :
  tab4 (start_state fdf) = (mkState fdf [BarChart (city_counts fdf)], Ok ()) ∧
  (length (city_counts fdf) ≤ 10)%nat ∧
  StronglySorted by_count_desc (city_counts fdf) ∧
  (∀ c n, (c, n) ∈ city_counts fdf →
          c ∈ row_city <$> fdf ∧ n = occurrences c (row_city <$> fdf)).
Proof.
  split; [done|]. unfold city_counts. split; [|split].
  - rewrite length_take. lia.
  - apply StronglySorted_take, value_counts_sorted.
  - intros c n Hin. apply elem_of_value_counts.
    by apply (subseteq_take 10).
Qed.

(** * Rounding *)

Section Rounding.
Local Open Scope Qc_scope.

Lemma rint_of_Z (n : Z) : rint (Qc_of_Z n) = n.
Proof.
  unfold rint.
  assert (Qfloor (Qc_of_Z n) = n) as -> by apply Qfloor_Z.
  unfold Qcminus. rewrite Qcplus_opp_r.
  by rewrite decide_True.
Qed.

Lemma round0_of_Z (n : Z) : round0 (Qc_of_Z n) = Qc_of_Z n.
Proof. unfold round0. by rewrite rint_of_Z. Qed.

(** A whole number of metres is unchanged by rounding to 2 decimals. *)
Lemma round2_of_Z (n : Z) : round2 (Qc_of_Z n) = Qc_of_Z n.
Proof.
  unfold round2.
  rewrite <-Z2Qc_inj_mul, rint_of_Z, Z2Qc_inj_mul.
  apply Qcdiv_mult_l. rewrite <-Z2Qc_inj_0. by intros ?%Z2Qc_inj.
Qed.

Lemma height_gt_pos (h : option Qc) :
  height_gt h (Qc_of_Z 0) ↔ ∃ v, h = Some v ∧ Qc_of_Z 0 < v.
Proof.
  unfold height_gt. destruct h as [v|]; simpl.
  - rewrite bool_decide_spec. split; [eauto|]. by intros (? & [= <-] & ?).
  - split; [done|]. by intros (? & [=] & _).
Qed.

End Rounding.

(** * The shared table *)

Section SharedTable.
Import Sample.
Implicit Types (fdf seen : list Row) (choice : nat).

Lemma table_after_tab2 choice fdf :
  table_after (tab2 choice) fdf = round_height <$> fdf.
Proof.
  unfold table_after, tab2, mbind, M_bind, get_df, set_df, render, start_state.
  simpl. by destruct (bool_decide _).
Qed.

Lemma table_after_tab5 fdf : table_after tab5 fdf = fdf.
Proof.
  unfold table_after. rewrite tab5_run. simpl. by destruct (index_min _).
Qed.

Lemma table_after_tab6 fdf : table_after tab6 fdf = fdf.
Proof.
  unfold table_after, tab6, mbind, M_bind, get_df, render, start_state.
  simpl. by destruct (bool_decide _).
Qed.

Lemma seen_by_statistics choice fdf :
  seen_by choice StatisticsView fdf = round_height <$> fdf.
Proof.
  unfold seen_by, before, table_after, mbind, M_bind.
  unfold tab1, tab2, mbind, M_bind, get_df, set_df, render, start_state.
  simpl. by destruct (bool_decide _).
Qed.

Lemma seen_by_top_cities choice fdf :
  seen_by choice TopCitiesView fdf = round_height <$> fdf.
Proof.
  unfold seen_by, before, table_after, mbind, M_bind.
  unfold tab1, tab2, tab3, mbind, M_bind, get_df, set_df, render, start_state.
  simpl. by destruct (bool_decide _).
Qed.

Lemma seen_by_trend choice fdf :
  seen_by choice TrendView fdf = round_height <$> fdf.
Proof.
  unfold seen_by, before, table_after, mbind, M_bind.
  unfold tab1, tab2, tab3, tab4, mbind, M_bind, get_df, set_df, render,
    start_state.
  simpl. by destruct (bool_decide _).
Qed.

Lemma seen_by_export choice fdf :
  seen_by choice ExportView fdf = round_height <$> fdf.
Proof.
  unfold seen_by, before, table_after, mbind, M_bind.
  unfold tab1, tab2, tab3, tab4, mbind, M_bind, get_df, set_df, render,
    start_state.
  simpl. destruct (bool_decide _); simpl; rewrite tab5_run; simpl;
    by destruct (index_min _).
Qed.

(** C5 (amended). Tabs 1, 3, 4, 5 and 6 leave [filtered_df] as they find
    it.  Tab 2 assigns to it: every height is replaced by its rounding to a
    whole number and no other column changes.  So the table view and the
    map view start from the filter output, and the statistics, top-cities,
    trend and export views start from the table with rounded heights. *)
Theorem only_map_view_rounds_heights choice fdf :
  (∀ v, v ≠ MapView → table_after (view_tab choice v) fdf = fdf) ∧
  table_after (view_tab choice MapView) fdf = round_height <$> fdf ∧
  seen_by choice TableView fdf = fdf ∧
  seen_by choice MapView fdf = fdf ∧
  (∀ v, v ≠ TableView → v ≠ MapView →
        seen_by choice v fdf = round_height <$> fdf) ∧
  (∀ r, round_height r =
        mkRow (row_name r) (row_city r) (row_country r) (row_latitude r)
          (row_longitude r) (round0 <$> row_height r) (row_year r)).
Proof.
  split; [|split; [|split; [|split; [|split]]]]; try done.
  - intros [] Hv; simpl; try done.
    + apply table_after_tab5.
    + apply table_after_tab6.
  - apply table_after_tab2.
  - intros [] Hv1 Hv2; try done.
    + apply seen_by_statistics.
    + apply seen_by_top_cities.
    + apply seen_by_trend.
    + apply seen_by_export.
Qed.

Lemma only_map_view_rounds_heights_witness :
  table_after (view_tab 0 StatisticsView) one = one ∧
  seen_by 0 StatisticsView one = round_height <$> one.
Proof.
  destruct (only_map_view_rounds_heights 0 one)
    as (Hframe & _ & _ & _ & Hseen & _).
  split.
  - apply Hframe. discriminate.
  - apply Hseen; discriminate.
Defined.

(** The tower of 100.4 m is 100 m high once tab 2 has run. *)
Example rounded_one :
  round_height <$> one = [row "Chicago" (Qc_of_Z 100) 1998].
Proof.
  unfold one, row. simpl. unfold round_height; simpl. reflexivity.
Qed.

Lemma one_not_rounded : round_height <$> one ≠ one.
Proof.
  rewrite rounded_one. unfold one, row. by intros [=].
Qed.

(** C5 as stated fails: run on the one-tower table, the map view changes
    [filtered_df], the statistics view starts from the changed table, and
    the summary it shows is not the summary of the filter output. *)
Lemma map_view_changes_shared_table :
  table_after (view_tab 0 MapView) one ≠ one ∧
  seen_by 0 StatisticsView one ≠ one ∧
  tallest (summarise (nonzero (seen_by 0 StatisticsView one)))
    ≠ tallest (summarise (nonzero one)).
Proof.
  split; [|split].
  - simpl. rewrite table_after_tab2. apply one_not_rounded.
  - rewrite seen_by_statistics. apply one_not_rounded.
  - rewrite seen_by_statistics, rounded_one. intros H.
    vm_compute in H. discriminate H.
Qed.

End SharedTable.

(** * Summary statistics (tab 3) *)

Section Statistics.
Import Sample.
Implicit Types (fdf seen : list Row) (choice : nat).

(** The summary of a single record, for any finite height: the mean is
    the height rounded to 2 decimals. *)
Lemma summarise_single (r : Row) (H : Qc) :
  row_height r = Some H →
  summarise [r] =
    mkSummary (Some H) (Some H) (Some (round2 H)) (Some H) 1.
Proof.
  intros Hr. unfold summarise, series_max, series_min, series_mean,
    series_median, dropna. simpl. rewrite Hr. simpl.
  change (Z.of_nat 1) with 1.
  by rewrite Z2Qc_inj_0, Qcplus_0_r, Z2Qc_inj_1, (right_id 1%Qc Qcdiv).
Qed.

Example summarise_unrounded :
  average (summarise one) = Some (metres 1004 10) ∧
  average (summarise [row "Chicago" (metres 100456 1000) 1998])
    = Some (metres 10046 100).
Proof.
  unfold one. split.
  - rewrite (summarise_single (row "Chicago" (metres 1004 10) 1998)
               (metres 1004 10) eq_refl).
    simpl; f_equal; try (apply Qc_decomp; vm_compute; reflexivity).
  - rewrite (summarise_single (row "Chicago" (metres 100456 1000) 1998)
               (metres 100456 1000) eq_refl).
    simpl; f_equal; try (apply Qc_decomp; vm_compute; reflexivity).
Qed.

(** The heights that the statistics view reads are whole numbers. *)
Lemma seen_heights_whole seen fdf r H :
  seen = round_height <$> fdf →
  r ∈ seen → row_height r = Some H → ∃ n, H = Qc_of_Z n.
Proof.
  intros -> (r0 & -> & _)%list_elem_of_fmap. simpl.
  destruct (row_height r0) as [h|]; simpl; [|done].
  intros [= <-]. by exists (rint h).
Qed.

Lemma elem_of_nonzero seen r :
  r ∈ nonzero seen ↔
  r ∈ seen ∧ ∃ h, row_height r = Some h ∧ (Qc_of_Z 0 < h)%Qc.
Proof.
  unfold nonzero. rewrite list_elem_of_filter, height_gt_pos. tauto.
Qed.

(** C6 (amended). The statistics view reads the filter output with every
    height rounded to a whole number by tab 2, and summarises the rows
    whose rounded height is strictly positive.  When exactly one such row
    exists, of rounded height [H], the tallest, shortest, average and
    median heights are all [H] and the count is 1.  When there is none, no
    statistic is a number, the count is 0 and nothing is raised. *)
Theorem summary_statistics_view choice fdf seen :
  seen = seen_by choice StatisticsView fdf →
  tab3 (start_state seen) =
    (mkState seen [SummaryTable (summarise (nonzero seen))], Ok ()) ∧
  (∀ r, r ∈ nonzero seen →
        ∃ h, row_height r = Some h ∧ (Qc_of_Z 0 < h)%Qc) ∧
  (∀ r H, nonzero seen = [r] → row_height r = Some H →
          summarise (nonzero seen) =
            mkSummary (Some H) (Some H) (Some H) (Some H) 1) ∧
  (nonzero seen = [] →
   summarise (nonzero seen) = no_numbers ∧ number no_numbers = 0%nat).
Proof.
  intros Hseen. rewrite seen_by_statistics in Hseen.
  split; [done|]. split; [|split].
  - intros r Hr. by apply elem_of_nonzero in Hr as [_ ?].
  - intros r H Hone Hr. rewrite Hone.
    assert (r ∈ seen) as Hin.
    { apply (elem_of_nonzero seen r). rewrite Hone. left. }
    destruct (seen_heights_whole seen fdf r H Hseen Hin Hr) as [n ->].
    rewrite (summarise_single r (Qc_of_Z n) Hr). by rewrite round2_of_Z.
  - by intros ->.
Qed.

Example statistics_of_one :
  nonzero (seen_by 0 StatisticsView one) = [row "Chicago" (Qc_of_Z 100) 1998].
Proof. rewrite seen_by_statistics, rounded_one. reflexivity. Qed.

Lemma summary_statistics_view_witness :
  summarise (nonzero (seen_by 0 StatisticsView one)) =
    mkSummary (Some (Qc_of_Z 100)) (Some (Qc_of_Z 100)) (Some (Qc_of_Z 100))
      (Some (Qc_of_Z 100)) 1.
Proof.
  destruct (summary_statistics_view 0 one (seen_by 0 StatisticsView one)
              eq_refl) as (_ & _ & Hsingle & _).
  exact (Hsingle (row "Chicago" (Qc_of_Z 100) 1998) (Qc_of_Z 100)
           statistics_of_one eq_refl).
Defined.

(** A filter output whose only tower is 0.4 m high: its height is
    strictly positive, and the statistics view counts no row. *)
Example statistics_of_low_tower :
  nonzero [row "Chicago" (metres 4 10) 1998]
    = [row "Chicago" (metres 4 10) 1998] ∧
  widgets_of tab3 (seen_by 0 StatisticsView [row "Chicago" (metres 4 10) 1998])
    = [SummaryTable no_numbers].
Proof.
  split; [reflexivity|]. rewrite seen_by_statistics. reflexivity.
Qed.

(** C6 as stated fails, for a height [H] that is not a whole number.  In
    the script, the filter output with the single tower of 100.4 m gives a
    summary of 100, not 100.4, because the view reads the heights that
    tab 2 has rounded.  On a table that still holds 100.456 m, the average
    is rounded to 2 decimals and is 100.46. *)
Lemma summary_of_single_record_not_its_height :
  ¬ (∀ (choice : nat) (fdf : list Row) (r : Row) (H : Qc),
       nonzero fdf = [r] → row_height r = Some H →
       widgets_of tab3 (seen_by choice StatisticsView fdf) =
         [SummaryTable (mkSummary (Some H) (Some H) (Some H) (Some H) 1)]) ∧
  ¬ (∀ (t : list Row) (r : Row) (H : Qc),
       nonzero t = [r] → row_height r = Some H →
       summarise (nonzero t) =
         mkSummary (Some H) (Some H) (Some H) (Some H) 1).
Proof.
  split.
  - intros Hclaim.
    specialize (Hclaim 0%nat one (row "Chicago" (metres 1004 10) 1998)
                  (metres 1004 10) eq_refl eq_refl).
    rewrite seen_by_statistics, rounded_one in Hclaim.
    unfold widgets_of, tab3, mbind, M_bind, get_df, render, start_state
      in Hclaim.
    simpl in Hclaim.
    apply (f_equal (λ ws, match ws with
                          | [SummaryTable x] => this <$> tallest x
                          | _ => None
                          end)) in Hclaim.
    vm_compute in Hclaim. discriminate Hclaim.
  - intros Hclaim.
    specialize (Hclaim [row "Chicago" (metres 100456 1000) 1998]
                  (row "Chicago" (metres 100456 1000) 1998)
                  (metres 100456 1000) eq_refl eq_refl).
    apply (f_equal (λ o, this <$> average o)) in Hclaim.
    vm_compute in Hclaim. discriminate Hclaim.
Qed.

End Statistics.

(** * Further properties of the filter engine *)

Section FilterEngineMore.
Import Sample.
Implicit Types (df : list Record_) (r : Record_).
Implicit Types (year_range : Z * Z) (height_range : Qc * Qc).
Implicit Types (city_filter : list string).

(** The two filtering steps of lines 76-83 as one mask. *)
Lemma filter_engine_one_mask df year_range height_range city_filter :
  filter_engine df year_range height_range city_filter =
  filter (λ r, range_mask year_range height_range r ∧
               (truthy city_filter → isin city_filter r)) df.
Proof.
  unfold filter_engine. destruct city_filter as [|c cs]; simpl.
  - apply list_filter_iff. intros r. tauto.
  - rewrite list_filter_filter. apply list_filter_iff. intros r. tauto.
Qed.

(** X1. A year range or a height range whose lower end is above its upper end
    retains nothing. *)
Theorem filter_engine_inverted_range df year_range height_range city_filter :
  year_range.2 < year_range.1 ∨ (height_range.2 < height_range.1)%Qc →
  filter_engine df year_range height_range city_filter = [].
Proof.
  intros Hinv. apply elem_of_nil_inv. intros r Hr.
  apply filter_engine_elem in Hr
    as (_ & (y & _ & Hy1 & Hy2) & (h & _ & Hh1 & Hh2) & _).
  destruct Hinv as [Hinv|Hinv]; [lia|].
  apply (Qclt_not_le _ _ Hinv). by etrans.
Qed.

Lemma filter_engine_inverted_range_witness :
  filter_engine df (2010, 2000) (slider_heights 0 1609) [] = [].
Proof.
  apply (filter_engine_inverted_range df (2010, 2000)
           (slider_heights 0 1609) []).
  left. simpl. lia.
Defined.

(** X2. Narrowing composes: filtering the output of one filter with ranges
    inside the first ones, and with a city selection inside the first one
    (any selection if the first had none), gives what the narrower filter
    gives on the whole table. *)
Theorem filter_engine_narrow df year_range height_range city_filter
    year_range' height_range' city_filter' :
  year_range.1 ≤ year_range'.1 → year_range'.2 ≤ year_range.2 →
  (height_range.1 ≤ height_range'.1)%Qc →
  (height_range'.2 ≤ height_range.2)%Qc →
  city_filter = [] ∨ (city_filter' ≠ [] ∧ city_filter' ⊆ city_filter) →
  filter_engine (filter_engine df year_range height_range city_filter)
    year_range' height_range' city_filter'
  = filter_engine df year_range' height_range' city_filter'.
Proof.
  intros Hy1 Hy2 Hh1 Hh2 Hc.
  rewrite !filter_engine_one_mask, list_filter_filter.
  apply list_filter_iff. intros r. split; [tauto|].
  intros [Hmask Hcity]. split; [done|]. split.
  - apply range_mask_spec in Hmask
      as [(y & Hy & ? & ?) (h & Hh & ? & ?)].
    apply range_mask_spec. split.
    + exists y. split; [done|]. lia.
    + exists h. split; [done|]. split; by etrans.
  - intros Htruthy. destruct Hc as [->|[Hne Hsub]]; [done|].
    apply isin_spec, Hsub, isin_spec, Hcity.
    by destruct city_filter'.
Qed.

Lemma filter_engine_narrow_witness :
  filter_engine (filter_engine df (1990, 2010) (slider_heights 0 1609) [])
    (1995, 2000) (slider_heights 100 500) ["Chicago"%string]
  = filter_engine df (1995, 2000) (slider_heights 100 500) ["Chicago"%string].
Proof.
  apply (filter_engine_narrow df (1990, 2010) (slider_heights 0 1609) []
           (1995, 2000) (slider_heights 100 500) ["Chicago"%string]).
  - simpl. lia.
  - simpl. lia.
  - apply Qc_of_Z_le_intro. lia.
  - apply Qc_of_Z_le_intro. lia.
  - by left.
Defined.

(** X3. The city selection acts as a set: its order and its repetitions do
    not matter, and a record passes when its city is any one of the
    selected cities. *)
Theorem filter_engine_city_set df year_range height_range city_filter
    city_filter' :
  (∀ c, c ∈ city_filter ↔ c ∈ city_filter') →
  filter_engine df year_range height_range city_filter
  = filter_engine df year_range height_range city_filter'.
Proof.
  intros Hset. rewrite !filter_engine_one_mask.
  apply list_filter_iff. intros r.
  assert (truthy city_filter = truthy city_filter') as ->.
  { destruct city_filter as [|c cs], city_filter' as [|c' cs']; try done.
    - by destruct (not_elem_of_nil c'); apply Hset; left.
    - by destruct (not_elem_of_nil c); apply Hset; left. }
  rewrite !isin_spec. by rewrite (Hset (location_city r)).
Qed.

Lemma filter_engine_city_set_witness :
  filter_engine df (1990, 2010) (slider_heights 0 1609)
    ["Chicago"; "Unknown"; "Chicago"]%string
  = filter_engine df (1990, 2010) (slider_heights 0 1609)
      ["Unknown"; "Chicago"]%string.
Proof.
  apply filter_engine_city_set. intros c.
  rewrite !elem_of_cons, !elem_of_nil. tauto.
Defined.

(** X4. With two non-empty selections, the rows retained for their
    concatenation are the rows retained for one or for the other. *)
Theorem filter_engine_city_union df year_range height_range cities1 cities2 r :
  cities1 ≠ [] → cities2 ≠ [] →
  r ∈ filter_engine df year_range height_range (cities1 ++ cities2) ↔
  r ∈ filter_engine df year_range height_range cities1 ∨
  r ∈ filter_engine df year_range height_range cities2.
Proof.
  intros H1 H2. rewrite !filter_engine_elem. unfold satisfies, city_in.
  rewrite elem_of_app.
  assert (cities1 ++ cities2 ≠ []) by (by destruct cities1).
  tauto.
Qed.

Lemma filter_engine_city_union_witness :
  clean (csv_tower 3 None (metres 1004 10) 2005)
    ∈ filter_engine df (1990, 2010) (slider_heights 0 1609)
        (["Chicago"%string] ++ ["Unknown"%string]).
Proof.
  apply (filter_engine_city_union df (1990, 2010) (slider_heights 0 1609)
           ["Chicago"%string] ["Unknown"%string]); [done..|].
  right. vm_compute. left.
Defined.

(** X5. Every row is decided on its own: the output for a table made of two
    parts is the output for the first part followed by the output for the
    second. *)
Theorem filter_engine_app df1 df2 year_range height_range city_filter :
  filter_engine (df1 ++ df2) year_range height_range city_filter
  = filter_engine df1 year_range height_range city_filter
    ++ filter_engine df2 year_range height_range city_filter.
Proof. rewrite !filter_engine_one_mask. apply filter_app. Qed.

End FilterEngineMore.

(** * Loader *)

Section Loader.
Import Sample.

(** X6. Loading keeps the rows and their order.  No loaded row has completed
    year 0; every other year, the height and the id are those of the CSV
    line; a city that is present is kept and a missing one reads
    "Unknown". *)
Theorem load_normalises (csv : list CsvRow) :
  length (load csv) = length csv ∧
  Forall (λ r, status_completed_year r ≠ Some 0) (load csv) ∧
  (∀ i c, csv !! i = Some c →
     ∃ r, load csv !! i = Some r ∧
       id_ r = csv_id c ∧
       statistics_height r = csv_statistics_height c ∧
       (∀ y, csv_status_completed_year c = Some y → y ≠ 0 →
             status_completed_year r = Some y) ∧
       (csv_status_completed_year c = None → status_completed_year r = None) ∧
       (∀ city, csv_location_city c = Some city → location_city r = city) ∧
       (csv_location_city c = None → location_city r = "Unknown"%string)).
Proof.
  unfold load. split; [apply length_fmap|]. split.
  - apply Forall_fmap, Forall_true. intros c. simpl.
    destruct (csv_status_completed_year c) as [y|]; simpl; [|done].
    case_bool_decide; congruence.
  - intros i c Hc. exists (clean c). rewrite list_lookup_fmap, Hc. simpl.
    repeat split.
    + intros y -> Hy. simpl. by rewrite bool_decide_false.
    + by intros ->.
    + by intros city ->.
    + by intros ->.
Qed.

(** X7. A CSV line without a city, with a known year and a height inside the
    ranges, is retained when "Unknown" is the selected city. *)
Theorem missing_city_selected_as_unknown (csv : list CsvRow) (c : CsvRow)
    (year_range : Z * Z) (height_range : Qc * Qc) (y : Z) (h : Qc) :
  c ∈ csv →
  csv_location_city c = None →
  csv_status_completed_year c = Some y → y ≠ 0 →
  year_range.1 ≤ y ≤ year_range.2 →
  csv_statistics_height c = Some h →
  (height_range.1 ≤ h)%Qc → (h ≤ height_range.2)%Qc →
  clean c ∈ filter_engine (load csv) year_range height_range
              ["Unknown"%string].
Proof.
  intros Hin Hcity Hyear Hy Hrange Hheight Hh1 Hh2.
  apply filter_engine_elem. split.
  - unfold load. apply list_elem_of_fmap. by exists c.
  - split; [|split].
    + exists y. simpl. rewrite Hyear. simpl. by rewrite bool_decide_false.
    + exists h. simpl. by rewrite Hheight.
    + right. simpl. rewrite Hcity. simpl. left.
Qed.

Lemma missing_city_selected_as_unknown_witness :
  clean (csv_tower 3 None (metres 1004 10) 2005)
    ∈ filter_engine (load csv) (2000, 2010) (slider_heights 0 1609)
        ["Unknown"%string].
Proof.
  apply (missing_city_selected_as_unknown csv
           (csv_tower 3 None (metres 1004 10) 2005)
           (2000, 2010) (slider_heights 0 1609) 2005 (metres 1004 10)).
  - unfold csv. do 2 right. left.
  - reflexivity.
  - reflexivity.
  - lia.
  - simpl. lia.
  - reflexivity.
  - by vm_compute.
  - by vm_compute.
Defined.

End Loader.

(** * Column labels *)

Section Columns.

Lemma replace_dots_no_dot (label : string) :
  "."%char ∉ String.list_ascii_of_string (replace_dots label).
Proof.
  induction label as [|c rest IH]; simpl; [apply not_elem_of_nil|].
  apply not_elem_of_cons. split; [|done].
  destruct (Ascii.eqb c ".") eqn:Hc; [done|].
  intros <-. by rewrite Ascii.eqb_refl in Hc.
Qed.

Lemma replace_dots_fixed (label : string) :
  "."%char ∉ String.list_ascii_of_string label → replace_dots label = label.
Proof.
  induction label as [|c rest IH]; simpl; [done|].
  intros [Hc Hrest]%not_elem_of_cons.
  rewrite IH by done. destruct (Ascii.eqb c ".") eqn:Heq; [|done].
  apply Ascii.eqb_eq in Heq. congruence.
Qed.

Lemma replace_dots_length (label : string) :
  String.length (replace_dots label) = String.length label.
Proof. induction label as [|c rest IH]; simpl; [done|]. by rewrite IH. Qed.

(** X8. Renaming the columns keeps their number, their order and the length
    of each label; no renamed label contains a dot, a label without a dot
    is unchanged, and renaming twice is renaming once. *)
Theorem rename_columns_underscores (columns : list string) :
  length (rename_columns columns) = length columns ∧
  (∀ i label, columns !! i = Some label →
     ∃ label', rename_columns columns !! i = Some label' ∧
       String.length label' = String.length label ∧
       ("."%char ∉ String.list_ascii_of_string label') ∧
       ("."%char ∉ String.list_ascii_of_string label → label' = label)) ∧
  rename_columns (rename_columns columns) = rename_columns columns.
Proof.
  unfold rename_columns. split; [apply length_fmap|]. split.
  - intros i label Hl. exists (replace_dots label).
    rewrite list_lookup_fmap, Hl. simpl.
    split; [done|]. split; [apply replace_dots_length|].
    split; [apply replace_dots_no_dot|apply replace_dots_fixed].
  - rewrite <-list_fmap_compose. apply list_fmap_ext. intros i label _. simpl.
    apply replace_dots_fixed, replace_dots_no_dot.
Qed.

Example rename_dotted :
  rename_columns ["location.city"; "status.completed.year";
                  "location.country id"; "id"]%string
  = ["location_city"; "status_completed_year"; "location_country id";
     "id"]%string.
Proof. reflexivity. Qed.

Lemma drop_Ok (columns labels kept : list string) :
  drop columns labels = Ok kept ↔
  labels ⊆ columns ∧ kept = filter (λ c, c ∉ labels) columns.
Proof.
  unfold drop.
  destruct (filter (λ l, l ∉ columns) labels) as [|l missing] eqn:Hmissing.
  - split.
    + intros [= <-]. split; [|done]. intros l Hl.
      destruct (decide (l ∈ columns)) as [|Hout]; [done|].
      by destruct (filter_nil_not_elem_of _ _ l Hmissing Hout).
    + by intros [_ ->].
  - split; [done|]. intros [Hsub _].
    assert (l ∈ filter (λ l, l ∉ columns) labels) as Hl
      by (rewrite Hmissing; left).
    apply list_elem_of_filter in Hl as [Hout Hin].
    exfalso. by apply Hout, Hsub.
Qed.

Lemma drop_total (columns labels : list string) :
  (∃ kept, drop columns labels = Ok kept) ∨
  drop columns labels = Raise (KeyError "not found in axis").
Proof. unfold drop. destruct (filter _ labels); eauto. Qed.

(** X9. The column drop of line 94 succeeds exactly when all the excluded
    labels are columns of the table, and raises [KeyError] otherwise.  When
    it succeeds it keeps, in their order, the columns that are not
    excluded; the columns read by the filters and the tabs are among
    them. *)
Theorem drop_excluded_columns (columns : list string) :
  (columns_to_exclude ⊆ columns ↔
   ∃ kept, drop columns columns_to_exclude = Ok kept) ∧
  (¬ columns_to_exclude ⊆ columns ↔
   drop columns columns_to_exclude = Raise (KeyError "not found in axis")) ∧
  (∀ kept, drop columns columns_to_exclude = Ok kept →
     kept `sublist_of` columns ∧
     (∀ c, c ∈ kept ↔ c ∈ columns ∧ c ∉ columns_to_exclude) ∧
     (∀ c, c ∈ columns_read → c ∈ columns → c ∈ kept)).
Proof.
  split; [|split].
  - split.
    + intros Hsub. eexists. by apply drop_Ok.
    + intros [kept Hk]. by apply drop_Ok in Hk as [? _].
  - split.
    + intros Hmiss. destruct (drop_total columns columns_to_exclude)
        as [[kept Hk]|]; [|done].
      by apply drop_Ok in Hk as [? _].
    + intros Hraise Hsub.
      assert (drop columns columns_to_exclude
              = Ok (filter (λ c, c ∉ columns_to_exclude) columns)) as Hok
        by (by apply drop_Ok).
      congruence.
  - intros kept [_ ->]%drop_Ok. split; [apply sublist_filter|]. split.
    + intros c. rewrite list_elem_of_filter. tauto.
    + intros c Hread Hin. apply list_elem_of_filter. split; [|done].
      unfold columns_read in Hread.
      repeat (apply elem_of_cons in Hread as [->|Hread];
              [apply (bool_decide_unpack _); vm_compute; exact I|]).
      by apply elem_of_nil in Hread.
Qed.

End Columns.

(** * Slider bounds *)

Section Sliders.
Import Sample.
Implicit Types (df : list Record_) (r : Record_).

Lemma foldr_max_spec x idx :
  foldr Z.max x idx ∈ x :: idx ∧ Forall (λ y, y ≤ foldr Z.max x idx) (x :: idx).
Proof.
  induction idx as [|y idx [IHin IHle]]; simpl.
  - split; [left|]. by repeat constructor.
  - inv IHle. destruct (Z.max_spec y (foldr Z.max x idx)) as [[? ->]|[? ->]].
    + split.
      * apply elem_of_cons in IHin as [->|?]; [left|right; by right].
      * constructor; [done|]. constructor; [lia|done].
    + split; [right; left|]. constructor; [lia|]. constructor; [lia|].
      eapply Forall_impl; [done|]. simpl. intros; lia.
Qed.

Lemma index_max_spec idx m :
  index_max idx = Some m ↔ m ∈ idx ∧ Forall (λ y, y ≤ m) idx.
Proof.
  destruct idx as [|x idx]; simpl.
  - split; [done|]. by intros [?%elem_of_nil _].
  - destruct (foldr_max_spec x idx) as [Hin Hle]. split.
    + by intros [= <-].
    + intros [Hm Hall]. f_equal.
      rewrite Forall_forall in Hle, Hall.
      specialize (Hle _ Hm). specialize (Hall _ Hin). lia.
Qed.

Lemma index_max_spec_None idx : index_max idx = None → idx = [].
Proof. by destruct idx. Qed.

Lemma elem_of_years df y :
  y ∈ dropna (status_completed_year <$> df) ↔
  ∃ r, r ∈ df ∧ status_completed_year r = Some y.
Proof.
  unfold dropna. rewrite list_elem_of_omap. split.
  - intros (o & (r & -> & Hr)%list_elem_of_fmap & Ho). by exists r.
  - intros (r & Hr & Hy). exists (Some y). split; [|done].
    apply list_elem_of_fmap. by exists r.
Qed.

(** X10. The year slider can be built exactly when some completed year is
    known; otherwise [int] raises.  Its bounds are completed years of the
    table and bracket every known year, so the widest year range retains
    every record with a known year whose height is in range. *)
Theorem year_bounds_bracket df :
  (year_bounds df = Raise (ValueError "cannot convert float NaN to integer")
   ↔ ∀ r, r ∈ df → status_completed_year r = None) ∧
  (∀ lo hi, year_bounds df = Ok (lo, hi) →
     (∃ r, r ∈ df ∧ status_completed_year r = Some lo) ∧
     (∃ r, r ∈ df ∧ status_completed_year r = Some hi) ∧
     (∀ r y, r ∈ df → status_completed_year r = Some y → lo ≤ y ≤ hi) ∧
     (∀ height_range r,
        r ∈ filter_engine df (lo, hi) height_range [] ↔
        r ∈ df ∧ status_completed_year r ≠ None ∧ height_in height_range r)).
Proof.
  unfold year_bounds.
  destruct (index_min (dropna (status_completed_year <$> df)))
    as [lo|] eqn:Hmin; simpl.
  - pose proof Hmin as [Hlo Hle]%index_min_spec.
    destruct (index_max (dropna (status_completed_year <$> df)))
      as [hi|] eqn:Hmax; simpl.
    + pose proof Hmax as [Hhi Hge]%index_max_spec.
      rewrite Forall_forall in Hle, Hge. split.
      * split; [done|]. intros Hnan.
        apply elem_of_years in Hlo as (r & Hr & Hy).
        rewrite (Hnan r Hr) in Hy. done.
      * intros lo' hi' [= <- <-].
        assert (∀ r y, r ∈ df → status_completed_year r = Some y →
                       lo ≤ y ≤ hi) as Hbracket.
        { intros r y Hr Hy.
          assert (y ∈ dropna (status_completed_year <$> df)) as Hin
            by (apply elem_of_years; eauto).
          split; [by apply Hle|by apply Hge]. }
        split; [by apply elem_of_years|].
        split; [by apply elem_of_years|].
        split; [done|].
        intros height_range r. rewrite filter_engine_elem.
        unfold satisfies, year_in, city_in. simpl. split.
        -- intros (Hr & (y & Hy & _) & Hh & _). rewrite Hy. done.
        -- intros (Hr & Hy & Hh). split; [done|].
           destruct (status_completed_year r) as [y|] eqn:Hyr; [|done].
           split; [|by split; [|left]]. exists y. split; [done|].
           by apply (Hbracket r).
    + apply index_max_spec_None in Hmax. rewrite Hmax in Hmin. done.
  - split; [|done]. split; [|done]. intros _ r Hr.
    apply index_min_None in Hmin.
    destruct (status_completed_year r) as [y|] eqn:Hy; [|done].
    assert (y ∈ dropna (status_completed_year <$> df)) as Hin
      by (apply elem_of_years; eauto).
    rewrite Hmin in Hin. by apply elem_of_nil in Hin.
Qed.

End Sliders.

Section HeightSlider.
Import Sample.
Local Open Scope Qc_scope.
Implicit Types (df : list Record_) (r : Record_) (q h : Qc).

Lemma truncate_nonneg q : Qc_of_Z 0 ≤ q → truncate q = Qfloor q.
Proof.
  destruct q as [[n d] Hq]. unfold truncate, Qcle, Qle. simpl.
  intros Hn. apply Z.quot_div_nonneg; lia.
Qed.

Lemma truncate_le q : Qc_of_Z 0 ≤ q → Qc_of_Z (truncate q) ≤ q.
Proof. intros Hq. rewrite truncate_nonneg by done. apply Qfloor_le. Qed.

Lemma truncate_lt_succ q : Qc_of_Z 0 ≤ q → q < Qc_of_Z (truncate q + 1).
Proof. intros Hq. rewrite truncate_nonneg by done. apply Qlt_floor. Qed.

Lemma foldr_Qc_max_spec x (xs : list Qc) :
  foldr Qc_max x xs ∈ x :: xs ∧ Forall (λ y, y ≤ foldr Qc_max x xs) (x :: xs).
Proof.
  induction xs as [|y xs [IHin IHle]]; simpl.
  - split; [left|]. by repeat constructor.
  - inv IHle. unfold Qc_max at 1 3. destruct (decide _) as [Hle|Hgt].
    + split.
      * apply elem_of_cons in IHin as [->|?]; [left|right; by right].
      * constructor; [done|]. by constructor.
    + apply Qclt_nge, Qclt_le_weak in Hgt.
      split; [right; left|]. constructor; [by etrans|].
      constructor; [done|]. eapply Forall_impl; [done|].
      simpl. intros z Hz. by etrans.
Qed.

Lemma foldr_Qc_min_spec x (xs : list Qc) :
  foldr Qc_min x xs ∈ x :: xs ∧ Forall (λ y, foldr Qc_min x xs ≤ y) (x :: xs).
Proof.
  induction xs as [|y xs [IHin IHle]]; simpl.
  - split; [left|]. by repeat constructor.
  - inv IHle. unfold Qc_min at 1 3. destruct (decide _) as [Hle|Hgt].
    + split; [right; left|]. constructor; [by etrans|].
      constructor; [done|]. eapply Forall_impl; [done|].
      simpl. intros z Hz. by etrans.
    + apply Qclt_nge, Qclt_le_weak in Hgt. split.
      * apply elem_of_cons in IHin as [->|?]; [left|right; by right].
      * constructor; [done|]. by constructor.
Qed.

(** [max()] and [min()] of a float column: a finite cell of the column
    that no finite cell exceeds (resp. is below). *)
Lemma series_max_spec (col : list (option Qc)) h :
  series_max col = Some h ↔ Some h ∈ col ∧ ∀ y, Some y ∈ col → y ≤ h.
Proof.
  assert (∀ y, y ∈ dropna col ↔ Some y ∈ col) as Hdrop.
  { intros y. unfold dropna. rewrite list_elem_of_omap. split.
    - intros (o & Ho & Heq). simpl in Heq. by subst.
    - intros Hy. by exists (Some y). }
  unfold series_max. destruct (dropna col) as [|x xs] eqn:Hcol.
  - split; [done|]. intros [Hh%Hdrop _]. by apply elem_of_nil in Hh.
  - destruct (foldr_Qc_max_spec x xs) as [Hin Hle].
    rewrite Forall_forall in Hle. split.
    + intros [= <-]. split; [by apply Hdrop|].
      intros y Hy%Hdrop. by apply Hle.
    + intros [Hh%Hdrop Hall]. f_equal. apply Qcle_antisym.
      * apply Hall, Hdrop, Hin.
      * by apply Hle.
Qed.

Lemma series_min_spec (col : list (option Qc)) h :
  series_min col = Some h ↔ Some h ∈ col ∧ ∀ y, Some y ∈ col → h ≤ y.
Proof.
  assert (∀ y, y ∈ dropna col ↔ Some y ∈ col) as Hdrop.
  { intros y. unfold dropna. rewrite list_elem_of_omap. split.
    - intros (o & Ho & Heq). simpl in Heq. by subst.
    - intros Hy. by exists (Some y). }
  unfold series_min. destruct (dropna col) as [|x xs] eqn:Hcol.
  - split; [done|]. intros [Hh%Hdrop _]. by apply elem_of_nil in Hh.
  - destruct (foldr_Qc_min_spec x xs) as [Hin Hle].
    rewrite Forall_forall in Hle. split.
    + intros [= <-]. split; [by apply Hdrop|].
      intros y Hy%Hdrop. by apply Hle.
    + intros [Hh%Hdrop Hall]. f_equal. apply Qcle_antisym.
      * by apply Hle.
      * apply Hall, Hdrop, Hin.
Qed.

Lemma height_bounds_Ok df lo hi :
  height_bounds df = Ok (lo, hi) ↔
  ∃ hmin hmax, series_min (statistics_height <$> df) = Some hmin ∧
               series_max (statistics_height <$> df) = Some hmax ∧
               lo = truncate hmin ∧ hi = truncate hmax.
Proof.
  unfold height_bounds.
  destruct (series_min _) as [hmin|], (series_max _) as [hmax|]; simpl.
  - split.
    + intros [= <- <-]. by exists hmin, hmax.
    + by intros (? & ? & [= <-] & [= <-] & -> & ->).
  - split; [done|]. by intros (? & ? & _ & [=] & _).
  - split; [done|]. by intros (? & ? & [=] & _).
  - split; [done|]. by intros (? & ? & [=] & _).
Qed.

(** X11. When no height is negative, the bounds of the height slider are
    whole numbers [lo] and [hi] with [lo] at most every height of the table
    and every height below [hi + 1]. *)
Theorem height_bounds_bracket df lo hi :
  height_bounds df = Ok (lo, hi) →
  (∀ r h, r ∈ df → statistics_height r = Some h → Qc_of_Z 0 ≤ h) →
  ∀ r h, r ∈ df → statistics_height r = Some h →
         Qc_of_Z lo ≤ h ∧ h < Qc_of_Z (hi + 1).
Proof.
  intros (hmin & hmax & Hmin & Hmax & -> & ->)%height_bounds_Ok Hpos r h Hr Hh.
  apply series_min_spec in Hmin as [Hmin_in Hmin].
  apply series_max_spec in Hmax as [Hmax_in Hmax].
  assert (Some h ∈ statistics_height <$> df) as Hcell
    by (apply list_elem_of_fmap; eauto).
  assert (∀ y, Some y ∈ statistics_height <$> df → Qc_of_Z 0 ≤ y) as Hpos'.
  { intros y (r' & Hy & Hr')%list_elem_of_fmap. by apply (Hpos r'). }
  split.
  - etrans; [apply truncate_le; by apply Hpos'|]. by apply Hmin.
  - eapply Qcle_lt_trans; [by apply Hmax|].
    apply truncate_lt_succ. by apply Hpos'.
Qed.

Lemma height_bounds_bracket_witness :
  Qc_of_Z 442 ≤ metres 8283 10 ∧ metres 8283 10 < Qc_of_Z (828 + 1).
Proof.
  apply (height_bounds_bracket spires 442 828 eq_refl) with
    (r := clean (csv_tower 1 (Some "Dubai"%string) (metres 8283 10) 2010)).
  - intros r h Hr Hh. unfold spires, load in Hr.
    repeat (apply elem_of_cons in Hr as [->|Hr];
            [injection Hh as <-; by vm_compute|]).
    by apply elem_of_nil in Hr.
  - left.
  - reflexivity.
Defined.

(** X12. The upper limit of the height slider is the largest height truncated
    to a whole number.  When that height is not a whole number, no setting
    of the slider reaches it, and the records of that height are excluded
    whatever the other filters are. *)
Theorem height_slider_misses_fractional_maximum df lo hi h
    (year_range : Z * Z) (height_range : Qc * Qc) (city_filter : list string) :
  height_bounds df = Ok (lo, hi) →
  series_max (statistics_height <$> df) = Some h →
  Qc_of_Z 0 ≤ h →
  Qc_of_Z (truncate h) ≠ h →
  height_range.2 ≤ Qc_of_Z hi →
  ∀ r, statistics_height r = Some h →
       r ∉ filter_engine df year_range height_range city_filter.
Proof.
  intros (hmin & hmax & _ & Hmax & _ & ->)%height_bounds_Ok Hh Hpos Hfrac Hhi.
  rewrite Hh in Hmax. injection Hmax as <-.
  intros r Hr (_ & _ & (h' & Hh' & _ & Hle) & _)%filter_engine_elem.
  rewrite Hr in Hh'. injection Hh' as <-.
  destruct (Qcle_lt_or_eq _ _ (truncate_le h Hpos)) as [Hlt|Heq]; [|done].
  apply (Qclt_not_le _ _ Hlt). by etrans.
Qed.

Lemma height_slider_misses_fractional_maximum_witness :
  clean (csv_tower 1 (Some "Dubai"%string) (metres 8283 10) 2010)
    ∉ filter_engine spires (1990, 2020) (slider_heights 442 828) [].
Proof.
  apply (height_slider_misses_fractional_maximum spires 442 828
           (metres 8283 10) (1990, 2020)%Z (slider_heights 442 828) []).
  - reflexivity.
  - reflexivity.
  - by vm_compute.
  - intros Heq. apply (f_equal this) in Heq. by vm_compute in Heq.
  - simpl. apply Qcle_refl.
  - reflexivity.
Defined.

End HeightSlider.

(** * Rounding to the nearest whole number *)

Section RoundingBounds.
Local Open Scope Qc_scope.
Implicit Types (q h : Qc).

(** Goals on [Qc] made of [+], [-], [≤], [<], whole numbers and one half
    are sent to linear arithmetic on [Q]. *)
Ltac qc_linear :=
  unfold Qcle, Qclt, Qcminus, Qcplus, Qcopp, Qcinv, Q2Qc, Qc_of_Z in *;
  cbn [this] in *;
  repeat (rewrite ?Qred_correct in * );
  rewrite ?inject_Z_plus in *;
  change (/ inject_Z 2)%Q with (1 # 2)%Q in *;
  change (inject_Z 1) with 1%Q in *;
  change (inject_Z 0) with 0%Q in *;
  repeat match goal with
         | |- context [inject_Z ?z] =>
             let x := fresh "x" in set (x := inject_Z z) in *; clearbody x
         | _ : context [inject_Z ?z] |- _ =>
             let x := fresh "x" in set (x := inject_Z z) in *; clearbody x
         end;
  lra.

Lemma floor_bounds q :
  Qc_of_Z (Qfloor q) ≤ q ∧ q < Qc_of_Z (Qfloor q + 1).
Proof. split; [apply Qfloor_le|apply Qlt_floor]. Qed.

(** The three cases of [rint]: below the half, above it, and the tie,
    which goes to the even neighbour. *)
Lemma rint_cases q :
  (q < Qc_of_Z (Qfloor q) + / Qc_of_Z 2 ∧ rint q = Qfloor q) ∨
  (Qc_of_Z (Qfloor q) + / Qc_of_Z 2 < q ∧ rint q = (Qfloor q + 1)%Z) ∨
  (q = Qc_of_Z (Qfloor q) + / Qc_of_Z 2 ∧
   rint q = (if Z.even (Qfloor q) then Qfloor q else Qfloor q + 1)%Z).
Proof.
  unfold rint.
  destruct (decide (q - Qc_of_Z (Qfloor q) < / Qc_of_Z 2)) as [Hlt|Hge].
  { left. split; [|done]. qc_linear. }
  destruct (decide (/ Qc_of_Z 2 < q - Qc_of_Z (Qfloor q))) as [Hgt|Hle].
  { right. left. split; [|done]. qc_linear. }
  right. right. split; [|done].
  apply Qcle_ngt in Hle. apply Qcle_ngt in Hge.
  apply Qcle_antisym; qc_linear.
Qed.

Lemma rint_within_half q :
  Qc_of_Z (rint q) - / Qc_of_Z 2 ≤ q ∧ q ≤ Qc_of_Z (rint q) + / Qc_of_Z 2.
Proof.
  destruct (floor_bounds q) as [Hlo Hhi].
  destruct (rint_cases q) as [[H ->]|[[H ->]|[H ->]]].
  - split; qc_linear.
  - split; qc_linear.
  - destruct (Z.even (Qfloor q)); rewrite H at 2 3; split; qc_linear.
Qed.

Lemma rint_pos q : (0 < rint q)%Z ↔ / Qc_of_Z 2 < q.
Proof.
  destruct (floor_bounds q) as [Hlo Hhi].
  destruct (Z_lt_le_dec 0 (Qfloor q)) as [Hf|Hf].
  - assert (Qc_of_Z 1 ≤ Qc_of_Z (Qfloor q)) as H1 by (apply (proj1 (Z2Qc_inj_le _ _)); lia).
    split.
    + intros _. qc_linear.
    + intros _. destruct (rint_cases q) as [[_ ->]|[[_ ->]|[_ ->]]];
        [lia|lia|destruct (Z.even _); lia].
  - destruct (Z_lt_le_dec (Qfloor q) 0) as [Hneg|Hzero].
    + assert (Qc_of_Z (Qfloor q + 1) ≤ Qc_of_Z 0) as H1
        by (apply (proj1 (Z2Qc_inj_le _ _)); lia).
      split.
      * destruct (rint_cases q) as [[_ ->]|[[_ ->]|[_ ->]]];
          [lia|lia|destruct (Z.even _); lia].
      * intros Hq. exfalso. qc_linear.
    + assert (Qfloor q = 0%Z) as Hf0 by lia.
      destruct (rint_cases q) as [[H ->]|[[H ->]|[H ->]]];
        rewrite Hf0 in *; simpl.
      * split; [lia|]. intros Hq. exfalso. qc_linear.
      * split; [|lia]. intros _. qc_linear.
      * split; [lia|]. intros Hq. exfalso. rewrite H in Hq. qc_linear.
Qed.

(** X13. Line 111 replaces a finite height by a whole number that is at most
    half a metre away, and leaves NaN as it is; rounding again changes
    nothing. *)
Theorem round_height_nearest (r : Row) :
  (row_height r = None → row_height (round_height r) = None) ∧
  (∀ h, row_height r = Some h →
     ∃ n : Z, row_height (round_height r) = Some (Qc_of_Z n) ∧
              Qc_of_Z n - / Qc_of_Z 2 ≤ h ∧ h ≤ Qc_of_Z n + / Qc_of_Z 2) ∧
  round_height (round_height r) = round_height r.
Proof.
  split; [|split].
  - simpl. by intros ->.
  - intros h Hh. exists (rint h). simpl. rewrite Hh. simpl.
    split; [done|]. apply rint_within_half.
  - unfold round_height. simpl. f_equal.
    destruct (row_height r) as [h|]; simpl; [|done].
    f_equal. apply (round0_of_Z (rint h)).
Qed.

Lemma nonzero_rounded (fdf : list Row) :
  nonzero (round_height <$> fdf) =
  round_height <$> filter (λ r, height_gt (row_height r) (/ Qc_of_Z 2)) fdf.
Proof.
  unfold nonzero. induction fdf as [|r fdf IH]; [done|].
  rewrite fmap_cons, !filter_cons, IH.
  assert (height_gt (row_height (round_height r)) (Qc_of_Z 0)
          ↔ height_gt (row_height r) (/ Qc_of_Z 2)) as Hiff.
  { simpl. destruct (row_height r) as [h|]; simpl; [|done].
    rewrite !bool_decide_spec. unfold round0.
    rewrite <-Z2Qc_inj_lt. apply rint_pos. }
  destruct (decide (height_gt (row_height (round_height r)) (Qc_of_Z 0))),
    (decide (height_gt (row_height r) (/ Qc_of_Z 2))); try tauto; done.
Qed.

(** X14. Because tab 2 has rounded the heights, the statistics view counts the
    rows whose height exceeds half a metre: a tower of at most 0.5 m is
    left out although its height is positive. *)
Theorem statistics_count_above_half (choice : nat) (fdf : list Row) :
  nonzero (seen_by choice StatisticsView fdf) =
    round_height <$> filter (λ r, height_gt (row_height r) (/ Qc_of_Z 2)) fdf ∧
  number (summarise (nonzero (seen_by choice StatisticsView fdf))) =
    length (filter (λ r, height_gt (row_height r) (/ Qc_of_Z 2)) fdf).
Proof.
  rewrite seen_by_statistics, nonzero_rounded. split; [done|].
  simpl. by rewrite length_fmap.
Qed.

Example statistics_skips_half_metre :
  number (summarise (nonzero (seen_by 0 StatisticsView
            [Sample.row "Chicago" (Sample.metres 5 10) 1998;
             Sample.row "Chicago" (Sample.metres 6 10) 1998]))) = 1%nat.
Proof. rewrite seen_by_statistics. vm_compute. reflexivity. Qed.

End RoundingBounds.

(** * The map view (tab 2) *)

Section MapView.
Import Sample.
Implicit Types (fdf : list Row) (choice : nat).

Lemma unique_head `{EqDecision A} (l : list A) : head (unique l) = head l.
Proof. by destruct l. Qed.

Lemma selectbox_elem (options : list string) choice :
  options ≠ [] → selectbox options choice ∈ options.
Proof.
  intros Hne. unfold selectbox.
  destruct (options !! choice) as [c|] eqn:Hc; simpl.
  - by eapply list_elem_of_lookup_2.
  - destruct options as [|c options]; [done|]. simpl. left.
Qed.

Lemma cities_rounded fdf : row_city <$> (round_height <$> fdf) = row_city <$> fdf.
Proof. rewrite <-list_fmap_compose. by apply list_fmap_ext. Qed.

Lemma years_rounded fdf : row_year <$> (round_height <$> fdf) = row_year <$> fdf.
Proof. rewrite <-list_fmap_compose. by apply list_fmap_ext. Qed.

(** X15. On a non-empty table the map view raises nothing and draws one deck:
    the selected city is a city of the table, the first row's city when
    the user has not picked one; the rows drawn are the rows of that city,
    with rounded heights, and there is at least one; the camera is at the
    mean latitude and longitude of these rows. *)
Theorem map_view_city choice fdf :
  fdf ≠ [] →
  ∃ city city_data,
    tab2 choice (start_state fdf) =
      (mkState (round_height <$> fdf)
         [DeckChart city (series_mean (row_latitude <$> city_data))
            (series_mean (row_longitude <$> city_data)) city_data],
       Ok ()) ∧
    city ∈ row_city <$> fdf ∧
    city_data = filter (λ r, row_city r = city) (round_height <$> fdf) ∧
    city_data ≠ [] ∧
    (choice = 0%nat → head (row_city <$> fdf) = Some city).
Proof.
  intros Hne.
  set (options := unique (row_city <$> fdf)).
  assert (options ≠ []) as Hopts by (by destruct fdf).
  pose proof (selectbox_elem options choice Hopts) as Hsel.
  exists (selectbox options choice),
    (filter (λ r, row_city r = selectbox options choice)
       (round_height <$> fdf)).
  split; [|split; [|split; [|split]]].
  - unfold tab2, mbind, M_bind, get_df, set_df, render, start_state. simpl.
    rewrite cities_rounded. fold options.
    rewrite bool_decide_true; [done|]. by destruct fdf.
  - by apply (proj1 (elem_of_unique (row_city <$> fdf) _)).
  - done.
  - apply (proj1 (elem_of_unique (row_city <$> fdf) _)) in Hsel.
    rewrite <-cities_rounded in Hsel.
    apply list_elem_of_fmap in Hsel as (r & Hr & Hin).
    intros Hnil. by apply (filter_nil_not_elem_of _ _ r Hnil).
  - intros ->. unfold selectbox, options.
    rewrite <-head_lookup, unique_head. by destruct fdf.
Qed.

Lemma map_view_city_witness :
  ∃ city city_data,
    tab2 0 (start_state recent) =
      (mkState (round_height <$> recent)
         [DeckChart city (series_mean (row_latitude <$> city_data))
            (series_mean (row_longitude <$> city_data)) city_data],
       Ok ()) ∧
    city ∈ row_city <$> recent ∧
    city_data = filter (λ r, row_city r = city) (round_height <$> recent) ∧
    city_data ≠ [] ∧
    (0%nat = 0%nat → head (row_city <$> recent) = Some city).
Proof. apply (map_view_city 0 recent). discriminate. Defined.

End MapView.

(** * Order between the statistics *)

Section StatisticsOrder.
Import Sample.
Local Open Scope Qc_scope.
Implicit Types (q h lo hi : Qc) (xs : list Qc) (col : list (option Qc)).

Ltac qc_arith :=
  unfold Qcle, Qclt, Qcdiv, Qcminus, Qcplus, Qcopp, Qcmult, Qcinv, Q2Qc,
    Qc_of_Z in *;
  cbn [this] in *;
  repeat (rewrite ?Qred_correct in * );
  rewrite ?inject_Z_plus in *;
  change (/ inject_Z 2)%Q with (1 # 2)%Q in *;
  change (inject_Z 1) with 1%Q in *;
  change (inject_Z 0) with 0%Q in *;
  repeat match goal with
         | |- context [inject_Z ?z] =>
             let x := fresh "x" in set (x := inject_Z z) in *; clearbody x
         | _ : context [inject_Z ?z] |- _ =>
             let x := fresh "x" in set (x := inject_Z z) in *; clearbody x
         end;
  lra.

Lemma Qc_of_nat_succ (n : nat) :
  Qc_of_Z (Z.of_nat (S n)) = Qc_of_Z (Z.of_nat n) + 1.
Proof. by rewrite Nat2Z.inj_succ, <-Z.add_1_r, Z2Qc_inj_add, Z2Qc_inj_1. Qed.

Lemma sum_lower_bound lo xs :
  Forall (λ y, lo ≤ y) xs →
  lo * Qc_of_Z (Z.of_nat (length xs)) ≤ foldr Qcplus (Qc_of_Z 0) xs.
Proof.
  induction 1 as [|x xs Hx _ IH].
  - cbn [length foldr]. change (Z.of_nat 0) with 0%Z.
    rewrite Z2Qc_inj_0, Qcmult_0_r. apply Qcle_refl.
  - cbn [length foldr]. rewrite Qc_of_nat_succ.
    replace (lo * (Qc_of_Z (Z.of_nat (length xs)) + 1))
      with (lo + lo * Qc_of_Z (Z.of_nat (length xs))) by ring.
    by apply Qcplus_le_compat.
Qed.

Lemma sum_upper_bound hi xs :
  Forall (λ y, y ≤ hi) xs →
  foldr Qcplus (Qc_of_Z 0) xs ≤ hi * Qc_of_Z (Z.of_nat (length xs)).
Proof.
  induction 1 as [|x xs Hx _ IH].
  - cbn [length foldr]. change (Z.of_nat 0) with 0%Z.
    rewrite Z2Qc_inj_0, Qcmult_0_r. apply Qcle_refl.
  - cbn [length foldr]. rewrite Qc_of_nat_succ.
    replace (hi * (Qc_of_Z (Z.of_nat (length xs)) + 1))
      with (hi + hi * Qc_of_Z (Z.of_nat (length xs))) by ring.
    by apply Qcplus_le_compat.
Qed.

Lemma elem_of_dropna {A} (col : list (option A)) (y : A) :
  y ∈ dropna col ↔ Some y ∈ col.
Proof.
  unfold dropna. rewrite list_elem_of_omap. split.
  - intros (o & Ho & Heq). simpl in Heq. by subst.
  - intros Hy. by exists (Some y).
Qed.

Lemma mean_within_extremes col m :
  series_mean col = Some m →
  ∃ lo hi, series_min col = Some lo ∧ series_max col = Some hi ∧
           lo ≤ m ∧ m ≤ hi.
Proof.
  unfold series_mean, series_min, series_max.
  destruct (dropna col) as [|x xs] eqn:Hcol; [done|]. intros [= <-].
  destruct (foldr_Qc_min_spec x xs) as [_ Hlo].
  destruct (foldr_Qc_max_spec x xs) as [_ Hhi].
  exists (foldr Qc_min x xs), (foldr Qc_max x xs).
  split; [done|]. split; [done|].
  set (N := Qc_of_Z (Z.of_nat (length (x :: xs)))).
  assert (0 < N) as HN.
  { unfold N. rewrite <-Z2Qc_inj_0. apply (proj1 (Z2Qc_inj_lt _ _)).
    simpl. lia. }
  assert (N ≠ 0) as HN' by (by apply not_symmetry, Qclt_not_eq).
  split.
  - apply (Qcmult_le_mono_pos_r _ _ N HN).
    unfold Qcdiv. rewrite <-Qcmult_assoc, Qcmult_inv_l, Qcmult_1_r by done.
    by apply (sum_lower_bound _ (x :: xs)).
  - apply (Qcmult_le_mono_pos_r _ _ N HN).
    unfold Qcdiv. rewrite <-Qcmult_assoc, Qcmult_inv_l, Qcmult_1_r by done.
    by apply (sum_upper_bound _ (x :: xs)).
Qed.

Lemma rint_mono q1 q2 : q1 ≤ q2 → (rint q1 ≤ rint q2)%Z.
Proof.
  intros Hle. destruct (Z_le_gt_dec (rint q1) (rint q2)) as [|Hgt]; [done|].
  exfalso.
  assert (Qc_of_Z (rint q2 + 1) ≤ Qc_of_Z (rint q1)) as Hz
    by (apply (proj1 (Z2Qc_inj_le _ _)); lia).
  destruct (rint_within_half q1) as [H1 _].
  destruct (rint_within_half q2) as [_ H2].
  assert (q1 = q2) as Heq by (apply Qcle_antisym; [done|]; qc_arith).
  subst q2. lia.
Qed.

Lemma round2_mono q1 q2 : q1 ≤ q2 → round2 q1 ≤ round2 q2.
Proof.
  intros Hle. unfold round2.
  assert (0 < Qc_of_Z 100) as H100
    by (rewrite <-Z2Qc_inj_0; by apply (proj1 (Z2Qc_inj_lt _ _))).
  assert (0 < / Qc_of_Z 100) as Hinv by (by apply Qcinv_pos).
  unfold Qcdiv. apply Qcmult_le_mono_pos_r; [done|].
  apply (proj1 (Z2Qc_inj_le _ _)), rint_mono.
  by apply Qcmult_le_mono_pos_r.
Qed.

Lemma median_between col lo hi m :
  (∀ y, Some y ∈ col → lo ≤ y ∧ y ≤ hi) →
  series_median col = Some m → lo ≤ m ∧ m ≤ hi.
Proof.
  intros Hcol. unfold series_median.
  set (xs := stable_sort Qcle (dropna col)).
  assert (∀ i y, xs !! i = Some y → lo ≤ y ∧ y ≤ hi) as Hxs.
  { intros i y Hy. apply Hcol, elem_of_dropna.
    apply list_elem_of_lookup_2 in Hy. unfold xs in Hy.
    by rewrite stable_sort_Permutation in Hy. }
  destruct (Nat.even (length xs)).
  - destruct (xs !! (length xs / 2 - 1)%nat) as [a|] eqn:Ha; [|done].
    destruct (xs !! (length xs / 2)%nat) as [b|] eqn:Hb; [|done].
    intros [= <-].
    destruct (Hxs _ _ Ha) as [Ha1 Ha2], (Hxs _ _ Hb) as [Hb1 Hb2].
    split; qc_arith.
  - intros Hm. by apply (Hxs _ _ Hm).
Qed.

Lemma nonzero_heights (t : list Row) y :
  Some y ∈ row_height <$> nonzero t ↔
  ∃ r, r ∈ nonzero t ∧ row_height r = Some y.
Proof.
  rewrite list_elem_of_fmap. split.
  - intros (r & Hy & Hr). by exists r.
  - intros (r & Hr & Hy). by exists r.
Qed.

(** X17. The statistics that tab 3 shows are ordered.  When some row of the
    table it reads has a positive height, the shortest and the tallest
    heights are positive heights of counted rows, every counted height lies
    between them, and so do the median and the average. *)
Theorem summary_ordered (choice : nat) (fdf seen : list Row) :
  seen = seen_by choice StatisticsView fdf →
  nonzero seen ≠ [] →
  ∃ lo hi avg med,
    summarise (nonzero seen)
      = mkSummary (Some hi) (Some lo) (Some avg) (Some med)
          (length (nonzero seen)) ∧
    (∃ r, r ∈ nonzero seen ∧ row_height r = Some lo) ∧
    (∃ r, r ∈ nonzero seen ∧ row_height r = Some hi) ∧
    (∀ r h, r ∈ nonzero seen → row_height r = Some h → lo ≤ h ∧ h ≤ hi) ∧
    Qc_of_Z 0 < lo ∧ lo ≤ med ∧ med ≤ hi ∧ lo ≤ avg ∧ avg ≤ hi.
Proof.
  intros Hseen Hne. rewrite seen_by_statistics in Hseen.
  set (col := row_height <$> nonzero seen).
  assert (∃ r0, r0 ∈ nonzero seen) as [r0 Hr0].
  { destruct (nonzero seen) as [|r0 rest]; [done|]. exists r0. left. }
  pose proof Hr0 as [_ (h0 & Hh0 & _)]%elem_of_nonzero.
  assert (Some h0 ∈ col) as Hcell by (apply nonzero_heights; eauto).
  destruct (series_mean col) as [mean|] eqn:Hmean.
  2:{ unfold series_mean in Hmean.
      destruct (dropna col) as [|x xs] eqn:Hd; [|done].
      apply elem_of_dropna in Hcell. rewrite Hd in Hcell.
      by apply elem_of_nil in Hcell. }
  destruct (mean_within_extremes col mean Hmean)
    as (lo & hi & Hmin & Hmax & Hlo & Hhi).
  pose proof Hmin as [Hlo_in Hlo_le]%series_min_spec.
  pose proof Hmax as [Hhi_in Hhi_le]%series_max_spec.
  assert (∀ y, Some y ∈ col → lo ≤ y ∧ y ≤ hi) as Hbetween
    by (intros y Hy; split; [by apply Hlo_le|by apply Hhi_le]).
  destruct (series_median col) as [med|] eqn:Hmed.
  2:{ unfold series_median in Hmed.
      assert (stable_sort Qcle (dropna col) ≡ₚ dropna col) as Hperm
        by apply stable_sort_Permutation.
      apply elem_of_dropna in Hcell.
      destruct (stable_sort Qcle (dropna col)) as [|x xs] eqn:Hs.
      { rewrite <-Hperm in Hcell. by apply elem_of_nil in Hcell. }
      destruct (Nat.even (length (x :: xs))) eqn:Heven.
      - destruct xs as [|x' xs]; [done|].
        assert (2 ≤ length (x :: x' :: xs))%nat as Hlen by (simpl; lia).
        set (n := length (x :: x' :: xs)) in *.
        assert (n / 2 < n)%nat as Hhalf by (apply Nat.div_lt; lia).
        assert (is_Some ((x :: x' :: xs) !! (n / 2 - 1)%nat)) as [a Ha]
          by (apply lookup_lt_is_Some; fold n; lia).
        assert (is_Some ((x :: x' :: xs) !! (n / 2)%nat)) as [b Hb]
          by (apply lookup_lt_is_Some; fold n; lia).
        by rewrite Ha, Hb in Hmed.
      - apply lookup_ge_None in Hmed.
        assert (1 ≤ length (x :: xs))%nat as Hlen by (simpl; lia).
        set (n := length (x :: xs)) in *.
        assert (n / 2 < n)%nat by (apply Nat.div_lt; lia).
        lia. }
  destruct (median_between col lo hi med Hbetween Hmed) as [Hm1 Hm2].
  apply nonzero_heights in Hlo_in as (rlo & Hrlo & Hhlo).
  apply nonzero_heights in Hhi_in as (rhi & Hrhi & Hhhi).
  assert (∃ n, lo = Qc_of_Z n) as [nlo ->].
  { apply (seen_heights_whole seen fdf rlo lo Hseen); [|done].
    by apply elem_of_nonzero in Hrlo as [? _]. }
  assert (∃ n, hi = Qc_of_Z n) as [nhi ->].
  { apply (seen_heights_whole seen fdf rhi hi Hseen); [|done].
    by apply elem_of_nonzero in Hrhi as [? _]. }
  exists (Qc_of_Z nlo), (Qc_of_Z nhi), (round2 mean), med.
  split; [|split; [|split; [|split; [|split; [|split; [|split; [|split]]]]]]].
  - unfold summarise. fold col. by rewrite Hmin, Hmax, Hmean, Hmed.
  - eauto.
  - eauto.
  - intros r h Hr Hh. apply Hbetween, nonzero_heights. eauto.
  - apply elem_of_nonzero in Hrlo as [_ (h & Hh & Hpos)]. congruence.
  - done.
  - done.
  - rewrite <-(round2_of_Z nlo). by apply round2_mono.
  - rewrite <-(round2_of_Z nhi). by apply round2_mono.
Qed.

Lemma summary_ordered_witness :
  ∃ lo hi avg med,
    summarise (nonzero (seen_by 0 StatisticsView recent))
      = mkSummary (Some hi) (Some lo) (Some avg) (Some med)
          (length (nonzero (seen_by 0 StatisticsView recent))) ∧
    (∃ r, r ∈ nonzero (seen_by 0 StatisticsView recent)
          ∧ row_height r = Some lo) ∧
    (∃ r, r ∈ nonzero (seen_by 0 StatisticsView recent)
          ∧ row_height r = Some hi) ∧
    (∀ r h, r ∈ nonzero (seen_by 0 StatisticsView recent) →
            row_height r = Some h → lo ≤ h ∧ h ≤ hi) ∧
    Qc_of_Z 0 < lo ∧ lo ≤ med ∧ med ≤ hi ∧ lo ≤ avg ∧ avg ≤ hi.
Proof.
  apply (summary_ordered 0 recent (seen_by 0 StatisticsView recent) eq_refl).
  rewrite seen_by_statistics. by vm_compute.
Defined.

End StatisticsOrder.

(** * Top cities are the cities with the most rows *)

Section TopCities.
Import Sample.
Context `{EqDecision K}.
Implicit Types (col u : list K) (k : K).

Lemma filter_all {A} (P : A → Prop) `{∀ x, Decision (P x)} (l : list A) :
  Forall P l → filter P l = l.
Proof.
  induction 1 as [|x l Hx _ IH]; [done|].
  by rewrite filter_cons, decide_True, IH.
Qed.

Lemma occurrences_cons_or k u col :
  k ∉ u →
  length (filter (λ x, x = k ∨ x ∈ u) col)
  = (occurrences k col + length (filter (λ x, x ∈ u) col))%nat.
Proof.
  intros Hk. unfold occurrences.
  induction col as [|x col IH]; [done|]. rewrite !filter_cons.
  destruct (decide (x = k)) as [->|Hne].
  - rewrite decide_True by (by left). rewrite decide_False by done.
    simpl. by rewrite IH.
  - destruct (decide (x ∈ u)).
    + rewrite decide_True by (by right). simpl. rewrite IH. lia.
    + rewrite decide_False by tauto. done.
Qed.

Lemma sum_occurrences u col :
  NoDup u →
  sum_list ((λ k, occurrences k col) <$> u)
  = length (filter (λ x, x ∈ u) col).
Proof.
  induction 1 as [|k u Hk _ IH].
  - simpl. induction col as [|x col IHcol]; [done|].
    rewrite filter_cons, decide_False; [done|]. apply not_elem_of_nil.
  - rewrite fmap_cons.
    change (sum_list (occurrences k col :: ((λ k, occurrences k col) <$> u)))
      with (occurrences k col
            + sum_list ((λ k, occurrences k col) <$> u))%nat.
    rewrite IH, <-occurrences_cons_or by done.
    f_equal. apply list_filter_iff. intros x. by rewrite elem_of_cons.
Qed.

(** The counts of [value_counts] add up to the length of the column. *)
Lemma sum_value_counts col : sum_list (value_counts col).*2 = length col.
Proof.
  rewrite value_counts_Permutation, <-list_fmap_compose.
  rewrite (list_fmap_ext (snd ∘ (λ k, (k, occurrences k col)))
             (λ k, occurrences k col) (unique col)) by done.
  rewrite sum_occurrences by apply NoDup_unique.
  rewrite filter_all; [done|].
  apply Forall_forall. intros x Hx. by apply elem_of_unique.
Qed.

(** The first ten of a list sorted by descending count dominate the rest. *)
Lemma take_dominates (n : nat) (s : list (K * nat)) (a b : K * nat) :
  StronglySorted by_count_desc s →
  a ∈ take n s → b ∈ s → b ∉ take n s →
  length (take n s) = n ∧ (b.2 ≤ a.2)%nat.
Proof.
  intros Hs Ha Hb Hout.
  rewrite <-(take_drop n s) in Hs, Hb.
  apply elem_of_app in Hb as [Hb|Hb]; [done|].
  split.
  - rewrite length_take. destruct (decide (n ≤ length s)%nat); [lia|].
    rewrite drop_ge in Hb by lia. by apply elem_of_nil in Hb.
  - apply StronglySorted_app in Hs as (Hcross & _ & _).
    by apply (Hcross a b).
Qed.

Lemma sum_list_take (n : nat) (l : list nat) :
  (sum_list (take n l) ≤ sum_list l)%nat.
Proof.
  rewrite <-(take_drop n l) at 2. rewrite sum_list_with_app. lia.
Qed.

End TopCities.

Section TopCitiesView.
Import Sample.
Implicit Types (fdf : list Row).

(** X18. The bars of tab 4 are the cities with the most rows.  No city has two
    bars and every bar has a positive count.  A city of the table without a
    bar exists only when there are ten bars, and then it has no more rows
    than any city with a bar.  The bars never add up to more than the
    number of rows, and add up to it when every city has a bar, which is
    the case with at most ten cities. *)
Theorem top_cities_dominate fdf :
  NoDup (city_counts fdf).*1 ∧
  (∀ c n, (c, n) ∈ city_counts fdf → (0 < n)%nat) ∧
  (∀ c, c ∈ row_city <$> fdf → c ∉ (city_counts fdf).*1 →
        length (city_counts fdf) = 10%nat ∧
        ∀ c' n', (c', n') ∈ city_counts fdf →
                 (occurrences c (row_city <$> fdf) ≤ n')%nat) ∧
  (sum_list (city_counts fdf).*2 ≤ length fdf)%nat ∧
  ((length (unique (row_city <$> fdf)) ≤ 10)%nat →
   sum_list (city_counts fdf).*2 = length fdf ∧
   ∀ c, c ∈ row_city <$> fdf → c ∈ (city_counts fdf).*1).
Proof.
  unfold city_counts. set (cities := row_city <$> fdf).
  assert (length fdf = length cities) as Hlen
    by (unfold cities; by rewrite length_fmap).
  split; [|split; [|split; [|split]]].
  - rewrite fmap_take. eapply sublist_NoDup; [|apply sublist_take].
    rewrite value_counts_labels. apply NoDup_unique.
  - intros c n Hin. apply (subseteq_take 10) in Hin.
    apply elem_of_value_counts in Hin as [Hc ->]. by apply occurrences_pos.
  - intros c Hc Hout.
    assert ((c, occurrences c cities) ∈ value_counts cities) as Hin
      by (by apply elem_of_value_counts).
    assert ((c, occurrences c cities) ∉ take 10 (value_counts cities))
      as Hout'.
    { intros Hin'. apply Hout, list_elem_of_fmap.
      by exists (c, occurrences c cities). }
    assert (length (take 10 (value_counts cities)) = 10%nat) as Hten.
    { rewrite length_take. destruct (decide (10 ≤ length (value_counts cities))%nat);
        [lia|].
      rewrite take_ge in Hout' by lia. done. }
    split; [done|]. intros c' n' Hin'.
    by destruct (take_dominates 10 (value_counts cities) (c', n')
                   (c, occurrences c cities) (value_counts_sorted cities)
                   Hin' Hin Hout') as [_ ?].
  - rewrite fmap_take, Hlen, <-(sum_value_counts cities).
    apply sum_list_take.
  - intros Hfew.
    assert (length (value_counts cities) ≤ 10)%nat as Hfew'.
    { rewrite <-(length_fmap fst), value_counts_labels. done. }
    rewrite take_ge by done. split.
    + by rewrite sum_value_counts.
    + intros c Hc. rewrite value_counts_labels. by apply elem_of_unique.
Qed.

Example top_cities_recent :
  city_counts recent = [("Dubai"%string, 2%nat); ("Chicago"%string, 1%nat)].
Proof. vm_compute. reflexivity. Qed.

End TopCitiesView.

(** * The trend series in general *)

Section TrendSeries.
Import Sample.
Implicit Types (fdf : list Row) (years : list Z) (m : Z).

Global Instance by_label_trans : Transitive by_label.
Proof. intros a b c. unfold by_label. lia. Qed.

Lemma trend_labels_NoDup years m :
  NoDup (index_union (seqZ m (2025 - m)) (sort_index (value_counts years)).*1).
Proof.
  unfold index_union. apply (proj2 (NoDup_app _ _)).
  split; [apply NoDup_seqZ|]. split.
  - intros k Hk [Hout _]%list_elem_of_filter. done.
  - apply NoDup_filter, year_counts_NoDup.
Qed.

Lemma elem_of_trend_labels years m k :
  k ∈ index_union (seqZ m (2025 - m)) (sort_index (value_counts years)).*1
  ↔ m ≤ k < 2025 ∨ k ∈ years.
Proof.
  unfold index_union.
  rewrite elem_of_app, list_elem_of_filter, year_counts_labels, elem_of_seqZ.
  destruct (decide (m ≤ k < 2025)); intuition lia.
Qed.

Lemma trend_series_eq years m :
  series_add_fill0 ((λ y, (y, 0%nat)) <$> range_index m 2025)
    (sort_index (value_counts years))
  = (λ k, (k, occurrences k years))
      <$> index_union (seqZ m (2025 - m)) (sort_index (value_counts years)).*1.
Proof.
  unfold series_add_fill0, range_index. rewrite all_years_labels.
  apply list_fmap_ext. intros i k _. simpl.
  by rewrite all_years_get, year_counts_get.
Qed.

(** X19. Whatever the years are, tab 5 plots, in ascending order of year and
    without repetition, one point for every year from the minimum present
    year to 2024 and for every later year that is present; each point
    carries the number of rows completed in its year, and the counts add up
    to the number of rows with a known year. *)
Theorem trend_series fdf m :
  index_min (years_of fdf) = Some m →
  ∃ points,
    tab5 (start_state fdf) = (mkState fdf [LineChart points], Ok ()) ∧
    StronglySorted by_label points ∧
    NoDup points.*1 ∧
    (∀ y n, (y, n) ∈ points ↔
            (m ≤ y < 2025 ∨ y ∈ years_of fdf) ∧
            n = occurrences y (years_of fdf)) ∧
    sum_list points.*2 = length (years_of fdf).
Proof.
  intros Hmin.
  set (years := years_of fdf) in *.
  set (labels := index_union (seqZ m (2025 - m))
                   (sort_index (value_counts years)).*1).
  exists (sort_index ((λ k, (k, occurrences k years)) <$> labels)).
  assert (sort_index ((λ k, (k, occurrences k years)) <$> labels)
          ≡ₚ (λ k, (k, occurrences k years)) <$> labels) as Hperm
    by apply stable_sort_Permutation.
  split; [|split; [|split; [|split]]].
  - rewrite tab5_run. simpl. fold years. rewrite Hmin.
    by rewrite trend_series_eq.
  - apply Sorted_StronglySorted; [apply _|]. apply Sorted_stable_sort, _.
  - rewrite Hperm, <-list_fmap_compose.
    rewrite (list_fmap_ext (fst ∘ (λ k, (k, occurrences k years))) id labels)
      by done.
    rewrite list_fmap_id. apply trend_labels_NoDup.
  - intros y n. rewrite Hperm, list_elem_of_fmap. split.
    + intros (k & [= -> ->] & Hk). split; [|done].
      by apply elem_of_trend_labels.
    + intros [Hy ->]. exists y. split; [done|].
      by apply elem_of_trend_labels.
  - rewrite Hperm, <-list_fmap_compose.
    rewrite (list_fmap_ext (snd ∘ (λ k, (k, occurrences k years)))
               (λ k, occurrences k years) labels) by done.
    rewrite sum_occurrences by apply trend_labels_NoDup.
    rewrite filter_all; [done|].
    apply Forall_forall. intros y Hy. apply elem_of_trend_labels. by right.
Qed.

Lemma trend_series_witness :
  ∃ points,
    tab5 (start_state planned) = (mkState planned [LineChart points], Ok ()) ∧
    StronglySorted by_label points ∧
    NoDup points.*1 ∧
    (∀ y n, (y, n) ∈ points ↔
            (2020 ≤ y < 2025 ∨ y ∈ years_of planned) ∧
            n = occurrences y (years_of planned)) ∧
    sum_list points.*2 = length (years_of planned).
Proof. apply (trend_series planned 2020). reflexivity. Defined.

End TrendSeries.

(** * The whole page *)

Section Page.
Import Sample.
Implicit Types (fdf : list Row) (choice : nat) (s : State).

Lemma empty_subset_raises choice :
  (tabs choice (start_state [])).2 =
    Raise (ValueError "cannot convert float NaN to integer").
Proof. reflexivity. Qed.

Lemma tab2_run choice s :
  ∃ deck,
    tab2 choice s =
      (mkState (round_height <$> filtered_df s) (rendered s ++ [deck]), Ok ()) ∧
    tab2 choice (start_state (filtered_df s)) =
      (mkState (round_height <$> filtered_df s) [deck], Ok ()).
Proof.
  unfold tab2, mbind, M_bind, get_df, set_df, render, start_state. simpl.
  destruct (bool_decide _); eexists; split; reflexivity.
Qed.

Lemma years_of_rounded fdf : years_of (round_height <$> fdf) = years_of fdf.
Proof. unfold years_of. by rewrite years_rounded. Qed.

Lemma city_counts_rounded fdf : city_counts (round_height <$> fdf) = city_counts fdf.
Proof. unfold city_counts. by rewrite cities_rounded. Qed.

(** X20. The rounding of tab 2 does not reach the top-cities and the trend
    views: what they draw on the table they read is what they would draw
    on the filter output, and the trend view raises on the one exactly
    when it raises on the other. *)
Theorem rounding_invisible_to_counts choice fdf :
  widgets_of tab4 (seen_by choice TopCitiesView fdf) = widgets_of tab4 fdf ∧
  widgets_of tab5 (seen_by choice TrendView fdf) = widgets_of tab5 fdf ∧
  outcome tab5 (seen_by choice TrendView fdf) = outcome tab5 fdf.
Proof.
  rewrite seen_by_top_cities, seen_by_trend.
  unfold widgets_of, outcome. rewrite !tab5_run. simpl.
  rewrite years_of_rounded.
  unfold tab4, mbind, M_bind, get_df, render. simpl.
  rewrite city_counts_rounded.
  split; [done|]. by destruct (index_min (years_of fdf)).
Qed.

(** The page on a table with a known year: six widgets, nothing raised.
    The data table shows the table as filtered; the summary and the
    download carry the rounded heights. *)
Lemma tabs_run choice fdf m :
  index_min (years_of fdf) = Some m →
  ∃ deck points,
    tabs choice (start_state fdf) =
      (mkState (round_height <$> fdf)
         [ DataTable fdf; deck;
           SummaryTable (summarise (nonzero (round_height <$> fdf)));
           BarChart (city_counts fdf);
           LineChart points;
           DownloadButton (round_height <$> fdf) ],
       Ok ()) ∧
    tab2 choice (start_state fdf) =
      (mkState (round_height <$> fdf) [deck], Ok ()) ∧
    tab5 (start_state fdf) = (mkState fdf [LineChart points], Ok ()).
Proof.
  intros Hmin.
  assert (fdf ≠ []) as Hne by (intros ->; done).
  destruct (tab2_run choice (mkState fdf [DataTable fdf]))
    as (deck & Hdeck & Hdeck0).
  eexists deck, _. split; [|split].
  - unfold tabs, mbind, M_bind at 1 2.
    unfold tab1 at 1. unfold mbind, M_bind, get_df, render, start_state. simpl.
    rewrite Hdeck. simpl.
    unfold tab3, tab4, mbind, M_bind, get_df, render. simpl.
    rewrite tab5_run. simpl. rewrite years_of_rounded, Hmin.
    unfold tab6, mbind, M_bind, get_df, render. simpl.
    rewrite bool_decide_true by (by destruct fdf).
    simpl. rewrite city_counts_rounded. reflexivity.
  - exact Hdeck0.
  - rewrite tab5_run. simpl. rewrite Hmin. reflexivity.
Qed.

(** X21. The dashboard on any table and any filter setting: when the filter
    retains nothing, tab 5 raises [ValueError]; otherwise nothing is raised
    and the six widgets are rendered, the download carrying as many rows as
    the filter retained, with rounded heights. *)
Theorem dashboard_outcome (df : list Record_) (year_range height_range : Z * Z)
    (city_filter : list string) choice fdf :
  fdf = project (filter_engine df year_range
                   (slider_heights height_range.1 height_range.2)
                   city_filter) →
  (fdf = [] →
   dashboard df year_range height_range city_filter choice =
     tabs choice (start_state []) ∧
   (dashboard df year_range height_range city_filter choice).2 =
     Raise (ValueError "cannot convert float NaN to integer")) ∧
  (fdf ≠ [] →
   ∃ deck points,
     dashboard df year_range height_range city_filter choice =
       (mkState (round_height <$> fdf)
          [ DataTable fdf; deck;
            SummaryTable (summarise (nonzero (round_height <$> fdf)));
            BarChart (city_counts fdf);
            LineChart points;
            DownloadButton (round_height <$> fdf) ],
        Ok ()) ∧
     length (round_height <$> fdf) =
       length (filter_engine df year_range
                 (slider_heights height_range.1 height_range.2) city_filter)).
Proof.
  intros Hfdf. unfold dashboard. rewrite <-Hfdf. split.
  - intros ->. split; [done|]. apply (empty_subset_raises choice).
  - intros Hne.
    destruct (index_min (years_of fdf)) as [m|] eqn:Hmin.
    + destruct (tabs_run choice fdf m Hmin) as (deck & points & Hrun & _).
      exists deck, points. split; [done|].
      rewrite length_fmap, Hfdf. unfold project. by rewrite length_fmap.
    + apply index_min_None in Hmin.
      pose proof (filtered_years_present df year_range
                    (slider_heights height_range.1 height_range.2)
                    city_filter) as Hlen.
      rewrite <-Hfdf, Hmin in Hlen. simpl in Hlen.
      destruct Hne. rewrite Hfdf. unfold project.
      destruct (filter_engine _ _ _ _); [done|]. done.
Qed.

Lemma dashboard_outcome_witness :
  ∃ deck points,
    dashboard df (1990, 2010) (0, 1609) [] 0 =
      (mkState (round_height <$> project (filter_engine df (1990, 2010)
                  (slider_heights 0 1609) []))
         [ DataTable (project (filter_engine df (1990, 2010)
                                 (slider_heights 0 1609) []));
           deck;
           SummaryTable (summarise (nonzero (round_height <$>
             project (filter_engine df (1990, 2010)
                        (slider_heights 0 1609) []))));
           BarChart (city_counts (project (filter_engine df (1990, 2010)
                                             (slider_heights 0 1609) [])));
           LineChart points;
           DownloadButton (round_height <$> project (filter_engine df
             (1990, 2010) (slider_heights 0 1609) [])) ],
       Ok ()) ∧
    length (round_height <$> project (filter_engine df (1990, 2010)
              (slider_heights 0 1609) []))
    = length (filter_engine df (1990, 2010) (slider_heights 0 1609) []).
Proof.
  destruct (dashboard_outcome df (1990, 2010) (0, 1609) [] 0
              (project (filter_engine df (1990, 2010)
                          (slider_heights 0 1609) [])) eq_refl)
    as [_ Hrun].
  apply Hrun. by vm_compute.
Defined.

End Page.

(** * The city multiselect *)

Section CityOptions.
Import Sample.
Implicit Types (df : list Record_).

Lemma filter_ext_in {A} (P Q : A → Prop)
    `{∀ x, Decision (P x)} `{∀ x, Decision (Q x)} (l : list A) :
  (∀ x, x ∈ l → P x ↔ Q x) → filter P l = filter Q l.
Proof.
  induction l as [|x l IH]; intros Hext; [done|].
  rewrite !filter_cons, IH by (intros y Hy; apply Hext; by right).
  destruct (decide (P x)) as [HP|HP], (decide (Q x)) as [HQ|HQ]; try done.
  - destruct HQ. apply Hext; [left|done].
  - destruct HP. apply Hext; [left|done].
Qed.

(** X22. The options of the multiselect are the cities of the table, each
    once, in order of first appearance; selecting all of them retains the
    same rows as selecting none. *)
Theorem select_all_cities df (year_range : Z * Z) (height_range : Qc * Qc) :
  NoDup (city_options df) ∧
  (∀ c, c ∈ city_options df ↔ ∃ r, r ∈ df ∧ location_city r = c) ∧
  head (city_options df) = location_city <$> head df ∧
  filter_engine df year_range height_range (city_options df)
  = filter_engine df year_range height_range [].
Proof.
  unfold city_options. split; [apply NoDup_unique|]. split; [|split].
  - intros c. rewrite elem_of_unique, list_elem_of_fmap. split.
    + intros (r & -> & Hr). by exists r.
    + intros (r & Hr & <-). by exists r.
  - rewrite unique_head. by destruct df.
  - rewrite !filter_engine_one_mask. apply filter_ext_in.
    intros r Hr. simpl. split; [tauto|]. intros [Hmask _].
    split; [done|]. intros _. apply isin_spec, elem_of_unique.
    apply list_elem_of_fmap. by exists r.
Qed.

End CityOptions.
